(** * gke-managed-certs: the reconciliation core, embedded and verified

    The development follows the sources:
    - [pkg/controller/sslcertificatemanager/manager.go], first part: the
      [SslCertificateManager] wrapping the provisioning API (module [Manager]);
    - the same file, second part: the [McertController] with its state
      initialisation and its periodic resynchronisation (module [Mcert]);
    - [pkg/controller/controller.go]: the supervisor [Controller.Run]
      (module [Supervisor]);
    - [e2e/deploy.go]: the custom resource definition installed by [deployCRD]
      (module [Crd]), and [deployCRD], [deployController] and
      [deleteController] themselves (module [Deploy]).

    Go values are modelled as follows: an [error] result is [option error]
    ([None] is [nil]); a nil-able pointer is an [option]; a Go [map] is a
    [gmap]; receivers that mutate collaborators are functions in a state
    monad over an explicit world. *)

From Stdlib Require Import String Ascii List Bool Arith Lia Permutation.
From stdpp Require Import gmap strings list fin_maps.

Import ListNotations.
Set Warnings "-register-all,-clear-no-such-hyp".
Local Open Scope string_scope.
Local Open Scope list_scope.

(** ** A small state monad for code that mutates its collaborators *)

Definition M (W A : Type) : Type := W -> A * W.

Definition ret {W A} (a : A) : M W A := fun w => (a, w).

Definition bind {W A C} (c : M W A) (k : A -> M W C) : M W C :=
  fun w => let (a, w') := c w in k a w'.

Definition modify {W} (f : W -> W) : M W unit := fun w => (tt, f w).

Declare Scope go_scope.
Delimit Scope go_scope with go.
Notation "'let*' x ':=' c 'in' k" := (bind c (fun x => k))
  (at level 10, x pattern, c at level 100, k at level 200) : go_scope.
Notation "c ';;' k" := (bind c (fun _ => k))
  (at level 100, k at level 200, right associativity) : go_scope.
Local Open Scope go_scope.

(** Go's [for _, x := range xs { body }] over a slice. *)
Fixpoint forRange {W A} (xs : list A) (body : A -> M W unit) : M W unit :=
  match xs with
  | [] => ret tt
  | x :: rest => body x ;; forRange rest body
  end.

(** ** Errors of the provisioning API *)

Module Http.

(** Modelled from the spec: package [pkg/utils/http] is not among the
    sources.  Section 6 of the specification says that the errors of the
    provisioning backend "are distinguishable into at least not found,
    quota exceeded, and other"; the message of a generic error is kept. *)
Inductive error : Type :=
| NotFound
| QuotaExceeded
| Other (msg : string).

(** Modelled from the spec: [http.IsNotFound], the "not found" class. *)
Definition IsNotFound (err : error) : bool :=
  match err with NotFound => true | _ => false end.

(** Modelled from the spec: [http.IsQuotaExceeded], the "quota exceeded"
    class. *)
Definition IsQuotaExceeded (err : error) : bool :=
  match err with QuotaExceeded => true | _ => false end.

(** Modelled from the spec: [http.IgnoreNotFound], which turns a "not
    found" error into [nil] ("not found is treated as success") and
    returns every other result as it is. *)
Definition IgnoreNotFound (err : option error) : option error :=
  match err with
  | Some e => if IsNotFound e then None else Some e
  | None => None
  end.

(** Modelled from the spec: [err.Error()], the text of an error.  The
    texts of the two classified errors are not in the sources; the name of
    the class stands for them. *)
Definition Error (err : error) : string :=
  match err with
  | NotFound => "notFound"
  | QuotaExceeded => "quotaExceeded"
  | Other msg => msg
  end.

End Http.

Export Http.

(** ** The declared resource and the provisioned certificate *)

(** [api.ManagedCertificate], restricted to the fields the sources read:
    [ObjectMeta.Namespace], [ObjectMeta.Name], [Spec.Domains] and
    [Status.CertificateName]. *)
Record ManagedCertificate : Type := {
  Namespace : string;
  Name : string;
  Domains : list string;
  CertificateName : string
}.

Global Instance ManagedCertificate_eq_dec : EqDecision ManagedCertificate.
Proof. solve_decision. Defined.

(** [compute.SslCertificate], the snapshot returned by the provisioning
    API; the manager passes it through without reading it. *)
Record SslCertificate : Type := {
  SslName : string;
  SslDomains : list string;
  SslStatus : string
}.

Global Instance SslCertificate_eq_dec : EqDecision SslCertificate.
Proof. solve_decision. Defined.

(** ** The certificate lifecycle manager: [sslcertificatemanager] *)

Module Manager.

(** Modelled from the spec: the event recorder [client.Event] is not
    among the sources.  Its four methods emit the four notification kinds
    of section 6, each attributed to a declared resource. *)
Inductive Event : Type :=
| EvTooManyCertificates (mcrt : ManagedCertificate) (err : error)
| EvBackendError (mcrt : ManagedCertificate) (err : error)
| EvCreate (mcrt : ManagedCertificate) (sslCertificateName : string)
| EvDelete (mcrt : ManagedCertificate) (sslCertificateName : string).

(** The interface [client.Ssl] of the provisioning API, over a backend
    state [B].  Each method returns its Go results and the next backend
    state; results are the Go pairs, so an implementation may return a
    value together with an error. *)
Record Ssl (B : Type) : Type := {
  SslCreate : string -> list string -> B -> option error * B;
  SslDelete : string -> B -> option error * B;
  SslExists : string -> B -> (bool * option error) * B;
  SslGet : string -> B -> (option SslCertificate * option error) * B
}.
Arguments SslCreate {B}.
Arguments SslDelete {B}.
Arguments SslExists {B}.
Arguments SslGet {B}.

(** What a call of the manager can touch: the backend behind
    [s.client.Ssl], the notifications recorded through [s.client.Event]
    and the lines written with [glog.Infof]. *)
Record World (B : Type) : Type := {
  backend : B;
  events : list Event;
  infolog : list string
}.
Arguments backend {B}.
Arguments events {B}.
Arguments infolog {B}.

Section WithClient.

Context {B : Type}.
Variable client : Ssl B.

Definition callSsl {A} (f : B -> A * B) : M (World B) A :=
  fun w =>
    let (a, b') := f (backend w) in
    (a, {| backend := b'; events := events w; infolog := infolog w |}).

Definition emit (ev : Event) : M (World B) unit :=
  modify (fun w =>
    {| backend := backend w; events := events w ++ [ev]; infolog := infolog w |}).

Definition Infof (line : string) : M (World B) unit :=
  modify (fun w =>
    {| backend := backend w; events := events w; infolog := infolog w ++ [line] |}).

(** [if mcrt != nil { ... }], the body reading the pointed resource. *)
Definition ifNotNil (mcrt : option ManagedCertificate)
    (f : ManagedCertificate -> M (World B) unit) : M (World B) unit :=
  match mcrt with
  | Some m => f m
  | None => ret tt
  end.

(** [SslCertificateManager.Create(sslCertificateName, mcrt) error] *)
Definition Create (sslCertificateName : string) (mcrt : ManagedCertificate)
  : M (World B) (option error) :=
  Infof ("Creating SslCertificate " +:+ sslCertificateName +:+
         " for ManagedCertificate " +:+ Namespace mcrt +:+ ":" +:+ Name mcrt) ;;
  let* err := callSsl (SslCreate client sslCertificateName (Domains mcrt)) in
  match err with
  | Some e =>
      if IsQuotaExceeded e then
        emit (EvTooManyCertificates mcrt e) ;;
        ret (Some e)
      else
        emit (EvBackendError mcrt e) ;;
        ret (Some e)
  | None =>
      emit (EvCreate mcrt sslCertificateName) ;;
      Infof ("Created SslCertificate " +:+ sslCertificateName +:+
             " for ManagedCertificate " +:+ Namespace mcrt +:+ ":" +:+ Name mcrt) ;;
      ret None
  end.

(** [SslCertificateManager.Delete(sslCertificateName, mcrt) error];
    [mcrt] is a pointer and may be nil. *)
Definition Delete (sslCertificateName : string) (mcrt : option ManagedCertificate)
  : M (World B) (option error) :=
  Infof ("Deleting SslCertificate " +:+ sslCertificateName) ;;
  let* res := callSsl (SslDelete client sslCertificateName) in
  match IgnoreNotFound res with
  | Some e =>
      ifNotNil mcrt (fun m => emit (EvBackendError m e)) ;;
      ret (Some e)
  | None =>
      ifNotNil mcrt (fun m => emit (EvDelete m sslCertificateName)) ;;
      Infof ("Deleted SslCertificate " +:+ sslCertificateName) ;;
      ret None
  end.

(** [SslCertificateManager.Exists(sslCertificateName, mcrt) (bool, error)] *)
Definition Exists (sslCertificateName : string) (mcrt : option ManagedCertificate)
  : M (World B) (bool * option error) :=
  let* (exists_, err) := callSsl (SslExists client sslCertificateName) in
  match err with
  | Some e =>
      ifNotNil mcrt (fun m => emit (EvBackendError m e)) ;;
      ret (false, Some e)
  | None => ret (exists_, None)
  end.

(** [SslCertificateManager.Get(sslCertificateName, mcrt)], returning a
    pointer to a [compute.SslCertificate] and an error. *)
Definition Get (sslCertificateName : string) (mcrt : option ManagedCertificate)
  : M (World B) (option SslCertificate * option error) :=
  let* (sslCert, err) := callSsl (SslGet client sslCertificateName) in
  match err with
  | Some e =>
      ifNotNil mcrt (fun m => emit (EvBackendError m e)) ;;
      ret (None, Some e)
  | None => ret (sslCert, err)
  end.

End WithClient.

End Manager.

(** ** The managed-certificate controller: [McertController] *)

Module Mcert.

(** Modelled from the spec: the state store behind [c.state]
    ([newMcertState], [Put], [Delete], [GetAllManagedCertificates],
    [GetAllSslCertificates]) is not among the sources.  Section 4.1: a map
    from resource key to certificate name with [Put(key, certName)],
    [Delete(key)], [AllKeys()] and [AllCertNames()], "at most one
    StateEntry per resource key". *)
Definition newMcertState : gmap string string := ∅.

Definition Put (key certName : string) (st : gmap string string) : gmap string string :=
  <[key := certName]> st.

Definition Delete (key : string) (st : gmap string string) : gmap string string :=
  delete key st.

Definition GetAllManagedCertificates (st : gmap string string) : list string :=
  (map_to_list st).*1.

Definition GetAllSslCertificates (st : gmap string string) : list string :=
  (map_to_list st).*2.

(** Modelled from the spec: the provisioning client behind [c.sslClient]
    is not among the sources.  Section 6: [Delete(name)] and [List()],
    which may fail.  The provider holds the certificates [Items]; which
    calls fail is part of the provider ([ListFails], [DeleteFails]), a
    deletion that succeeds removes the certificate of that name and no
    other, a deletion of an absent name reports "not found", and a failed
    call changes nothing.  [DeleteCalls] records the names [Delete] was
    called with, in call order. *)
Record Provider : Type := {
  Items : list SslCertificate;
  ListFails : option error;
  DeleteFails : string -> option error;
  DeleteCalls : list string
}.

Definition hasName (name : string) (cert : SslCertificate) : bool :=
  String.eqb (SslName cert) name.

Definition providerList (p : Provider) : list SslCertificate * option error :=
  match ListFails p with
  | Some e => ([], Some e)
  | None => (Items p, None)
  end.

Definition providerDelete (name : string) (p : Provider) : option error * Provider :=
  let called items :=
    {| Items := items; ListFails := ListFails p; DeleteFails := DeleteFails p;
       DeleteCalls := DeleteCalls p ++ [name] |} in
  match DeleteFails p name with
  | Some e => (Some e, called (Items p))
  | None =>
      if existsb (hasName name) (Items p)
      then (None, called (List.filter (fun cert => negb (hasName name cert)) (Items p)))
      else (Some NotFound, called (Items p))
  end.

(** What [cache.MetaNamespaceKeyFunc] can be given as [interface{}]: a
    managed certificate, or an object without metadata (the informer's
    tombstone of a deleted object is one). *)
Inductive Obj : Type :=
| ObjMcert (mcert : ManagedCertificate)
| ObjNoMeta.

(** [cache.MetaNamespaceKeyFunc] of client-go: [namespace/name], or the
    name alone when the namespace is empty; an error for an object
    without metadata. *)
Definition MetaNamespaceKeyFunc (obj : Obj) : string * option error :=
  match obj with
  | ObjMcert mcert =>
      if (0 <? String.length (Namespace mcert))%nat
      then (Namespace mcert +:+ "/" +:+ Name mcert, None)
      else (Name mcert, None)
  | ObjNoMeta => ("", Some (Other "object has no meta"))
  end.

(** The fields of [McertController] that the sources use: the result of
    [c.lister.List(labels.Everything())] on the informer cache, the state
    store, the provisioning client, the keys handed to
    [c.queue.AddRateLimited] in call order, the errors given to
    [runtime.HandleError] and the lines of [glog.Infof]. *)
Record McertController : Type := {
  lister : list ManagedCertificate * option error;
  state : gmap string string;
  sslClient : Provider;
  queue : list string;
  handled : list error;
  infolog : list string
}.

Definition withState (f : gmap string string -> gmap string string) : M McertController unit :=
  modify (fun c =>
    {| lister := lister c; state := f (state c); sslClient := sslClient c;
       queue := queue c; handled := handled c; infolog := infolog c |}).

Definition callProvider {A} (f : Provider -> A * Provider) : M McertController A :=
  fun c =>
    let (a, p') := f (sslClient c) in
    (a, {| lister := lister c; state := state c; sslClient := p';
           queue := queue c; handled := handled c; infolog := infolog c |}).

Definition AddRateLimited (key : string) : M McertController unit :=
  modify (fun c =>
    {| lister := lister c; state := state c; sslClient := sslClient c;
       queue := queue c ++ [key]; handled := handled c; infolog := infolog c |}).

Definition HandleError (err : error) : M McertController unit :=
  modify (fun c =>
    {| lister := lister c; state := state c; sslClient := sslClient c;
       queue := queue c; handled := handled c ++ [err]; infolog := infolog c |}).

Definition Infof (line : string) : M McertController unit :=
  modify (fun c =>
    {| lister := lister c; state := state c; sslClient := sslClient c;
       queue := queue c; handled := handled c; infolog := infolog c ++ [line] |}).

Definition List_ : M McertController (list ManagedCertificate * option error) :=
  fun c => (lister c, c).

Definition getState : M McertController (gmap string string) :=
  fun c => (state c, c).

(** [func (c *McertController) initializeState() error] *)
Definition initializeState : M McertController (option error) :=
  let* (mcerts, err) := List_ in
  match err with
  | Some e => ret (Some e)
  | None =>
      forRange mcerts (fun mcert =>
        withState (Put (Name mcert) (CertificateName mcert))) ;;
      ret None
  end.

(** [func (c *McertController) enqueue(obj interface{})] *)
Definition enqueue (obj : Obj) : M McertController unit :=
  let (key, err) := MetaNamespaceKeyFunc obj in
  match err with
  | Some e => HandleError e
  | None => AddRateLimited key
  end.

(** [func (c *McertController) getAllMcertsInCluster()], returning the
    Go map from [ObjectMeta.Name] to the resource and an error. *)
Definition getAllMcertsInCluster
  : M McertController (gmap string ManagedCertificate * option error) :=
  let* (mcerts, err) := List_ in
  match err with
  | Some e => ret (∅, Some e)
  | None =>
      ret (foldl (fun result mcert => <[Name mcert := mcert]> result) ∅ mcerts, None)
  end.

(** [func (c *McertController) deleteObsoleteMcertsFromState(allMcertsInCluster)] *)
Definition deleteObsoleteMcertsFromState
    (allMcertsInCluster : gmap string ManagedCertificate) : M McertController unit :=
  let* st := getState in
  let allKnownMcerts := GetAllManagedCertificates st in
  forRange allKnownMcerts (fun knownMcert =>
    match allMcertsInCluster !! knownMcert with
    | None =>
        withState (Delete knownMcert) ;;
        Infof ("Deleted " +:+ knownMcert +:+ " managed certificate from state, because such custom object does not exist in the cluster (any more?)")
    | Some _ => ret tt
    end).

(** [func (c* McertController) deleteObsoleteSslCertificates() error] *)
Definition deleteObsoleteSslCertificates : M McertController (option error) :=
  let* st := getState in
  let allKnownSslCerts := GetAllSslCertificates st in
  let allKnownSslCertsSet : gmap string bool :=
    foldl (fun set knownSslCert => <[knownSslCert := true]> set) ∅ allKnownSslCerts in
  let* (sslCerts, err) := callProvider (fun p => (providerList p, p)) in
  match err with
  | Some e => ret (Some e)
  | None =>
      forRange sslCerts (fun sslCert =>
        let (known, exists_) :=
          match allKnownSslCertsSet !! SslName sslCert with
          | Some known => (known, true)
          | None => (false, false)
          end in
        if negb exists_ || negb known then
          callProvider (providerDelete (SslName sslCert)) ;;
          Infof ("Deleted " +:+ SslName sslCert +:+ " SslCertificate resource, because there is no such ssl certificate in state")
        else ret tt) ;;
      ret None
  end.

(** [func (c *McertController) synchronizeAllMcerts()]; the Go map is
    ranged over in an unspecified order, here the order of [map_to_list]. *)
Definition synchronizeAllMcerts : M McertController unit :=
  let* (allMcertsInCluster, err) := getAllMcertsInCluster in
  match err with
  | Some e => HandleError e
  | None =>
      deleteObsoleteMcertsFromState allMcertsInCluster ;;
      let* err := deleteObsoleteSslCertificates in
      match err with
      | Some e => HandleError e
      | None =>
          forRange (map_to_list allMcertsInCluster).*2 (fun mcert =>
            enqueue (ObjMcert mcert))
      end
  end.

End Mcert.

(** ** The supervisor: [Controller.Run] and [McertController.Run] *)

Module Supervisor.

(** The loops that the two [Run] functions start with a [go] statement:
    [wait.Until(c.runWorker, ...)], [wait.Until(c.synchronizeAllMcerts, ...)],
    [c.Ingress.Run(ingressStopChannel)] and
    [wait.Until(c.runIngressWorker, ...)]. *)
Inductive Loop : Type :=
| WorkerLoop
| ResyncLoop
| IngressLoop
| IngressWorkerLoop.

Global Instance Loop_eq_dec : EqDecision Loop.
Proof. solve_decision. Defined.

(** Program points of [Controller.Run], one per blocking or spawning
    statement. *)
Inductive MainPc : Type :=
| WaitForCacheSync
| GoMcertRun
| GoIngressRun
| GoIngressWorker
| Select
| QuitMcert
| QuitIngress
| Returned (err : option error).

(** Program points of the goroutine running [McertController.Run]. *)
Inductive McertPc : Type :=
| NotSpawned
| InitializeState
| SendError (err : error)
| GoWorker
| GoResync
| WaitStop
| McertReturned.

(** The state of a run: where the two goroutines are, the controller,
    the loops whose [go] statement has been executed ([started]), those
    that have received a stop signal ([stopped]), one entry for every round
    a loop has run ([ran]), the error [initializeState] has returned, if
    any, and the errors [Controller.Run] has given to
    [runtime.HandleError]. *)
Record State : Type := {
  mainPc : MainPc;
  mcertPc : McertPc;
  controller : Mcert.McertController;
  started : list Loop;
  stopped : list Loop;
  ran : list Loop;
  initError : option error;
  reported : list error
}.

Definition start (c : Mcert.McertController) : State :=
  {| mainPc := WaitForCacheSync; mcertPc := NotSpawned; controller := c;
     started := []; stopped := []; ran := []; initError := None; reported := [] |}.

Definition setMain (pc : MainPc) (s : State) : State :=
  {| mainPc := pc; mcertPc := mcertPc s; controller := controller s;
     started := started s; stopped := stopped s; ran := ran s;
     initError := initError s; reported := reported s |}.

Definition setMcert (pc : McertPc) (s : State) : State :=
  {| mainPc := mainPc s; mcertPc := pc; controller := controller s;
     started := started s; stopped := stopped s; ran := ran s;
     initError := initError s; reported := reported s |}.

Definition setController (c : Mcert.McertController) (s : State) : State :=
  {| mainPc := mainPc s; mcertPc := mcertPc s; controller := c;
     started := started s; stopped := stopped s; ran := ran s;
     initError := initError s; reported := reported s |}.

(** [go loop]: the loop is running from now on. *)
Definition go (l : Loop) (s : State) : State :=
  {| mainPc := mainPc s; mcertPc := mcertPc s; controller := controller s;
     started := started s ++ [l]; stopped := stopped s; ran := ran s;
     initError := initError s; reported := reported s |}.

Definition stop (l : Loop) (s : State) : State :=
  {| mainPc := mainPc s; mcertPc := mcertPc s; controller := controller s;
     started := started s; stopped := stopped s ++ [l]; ran := ran s;
     initError := initError s; reported := reported s |}.

Definition iterate (l : Loop) (s : State) : State :=
  {| mainPc := mainPc s; mcertPc := mcertPc s; controller := controller s;
     started := started s; stopped := stopped s; ran := ran s ++ [l];
     initError := initError s; reported := reported s |}.

Definition failInit (e : error) (s : State) : State :=
  {| mainPc := mainPc s; mcertPc := mcertPc s; controller := controller s;
     started := started s; stopped := stopped s; ran := ran s;
     initError := Some e; reported := reported s |}.

Definition report (e : error) (s : State) : State :=
  {| mainPc := mainPc s; mcertPc := mcertPc s; controller := controller s;
     started := started s; stopped := stopped s; ran := ran s;
     initError := initError s; reported := reported s ++ [e] |}.

Definition running (l : Loop) (s : State) : Prop :=
  l ∈ started s ∧ l ∉ stopped s.

(** One round of a loop, on the controller.  The resync loop runs
    [synchronizeAllMcerts]; [runWorker], [Ingress.Run] and
    [runIngressWorker] are not among the sources, a round of theirs may
    leave the controller in any state. *)
Definition round (l : Loop) (c c' : Mcert.McertController) : Prop :=
  match l with
  | ResyncLoop => c' = snd (Mcert.synchronizeAllMcerts c)
  | _ => True
  end.

(** [fmt.Errorf("Cnuld not intialize state: %v", err)] *)
Definition initErrorf (err : error) : error :=
  Other ("Cnuld not intialize state: " +:+ Error err).

(** One step of one goroutine.  A send on an unbuffered channel is a
    step of sender and receiver together; a send without a receiver has
    no step. *)
Inductive step : State -> State -> Prop :=
(* Controller.Run *)
| step_cache_synced s :
    mainPc s = WaitForCacheSync ->
    step s (setMain GoMcertRun s)
| step_cache_timeout s :
    mainPc s = WaitForCacheSync ->
    step s (setMain (Returned (Some (Other "Timed out waiting for cache sync"))) s)
| step_go_mcert s :
    mainPc s = GoMcertRun ->
    step s (setMain GoIngressRun (setMcert InitializeState s))
| step_go_ingress s :
    mainPc s = GoIngressRun ->
    step s (setMain GoIngressWorker (go IngressLoop s))
| step_go_ingress_worker s :
    mainPc s = GoIngressWorker ->
    step s (setMain Select (go IngressWorkerLoop s))
| step_select_stop s :
    mainPc s = Select ->
    step s (setMain QuitMcert s)
| step_select_error s err :
    mainPc s = Select -> mcertPc s = SendError err ->
    step s (setMain QuitMcert (setMcert McertReturned (report err s)))
(* quit: mcertStopChannel <- struct{}{}, received by McertController.Run
   or by one of the two loops it started on the same channel *)
| step_quit_mcert_run s :
    mainPc s = QuitMcert -> mcertPc s = WaitStop ->
    step s (setMain QuitIngress (setMcert McertReturned s))
| step_quit_mcert_loop s l :
    mainPc s = QuitMcert -> l = WorkerLoop ∨ l = ResyncLoop -> running l s ->
    step s (setMain QuitIngress (stop l s))
(* quit: ingressStopChannel <- struct{}{} *)
| step_quit_ingress s :
    mainPc s = QuitIngress -> running IngressLoop s ->
    step s (setMain (Returned None) (stop IngressLoop s))
(* McertController.Run *)
| step_init_fail s err c' :
    mcertPc s = InitializeState ->
    Mcert.initializeState (controller s) = (Some err, c') ->
    step s (setMcert (SendError (initErrorf err)) (failInit err (setController c' s)))
| step_init_ok s c' :
    mcertPc s = InitializeState ->
    Mcert.initializeState (controller s) = (None, c') ->
    step s (setMcert GoWorker (setController c' s))
| step_go_worker s :
    mcertPc s = GoWorker ->
    step s (setMcert GoResync (go WorkerLoop s))
| step_go_resync s :
    mcertPc s = GoResync ->
    step s (setMcert WaitStop (go ResyncLoop s))
(* one round of a running loop *)
| step_loop s l c' :
    running l s -> round l (controller s) c' ->
    step s (iterate l (setController c' s)).

Definition reachable (c : Mcert.McertController) (s : State) : Prop :=
  rtc step (start c) s.

End Supervisor.

(** ** The custom resource definition of [deployCRD] *)

Module Crd.

(** *** Patterns

    The fragment of the RE2 syntax that [domainRegex] is written in.
    [show] prints a pattern back in that syntax. *)
Inductive CharItem : Type :=
| Single (c : ascii)
| Range (lo hi : ascii).

Inductive Regex : Type :=
| BeginText
| EndText
| Lit (c : ascii)
| Class (items : list CharItem)
| Seq (r1 r2 : Regex)
| Alt (r1 r2 : Regex)
| Group (r : Regex)
| Plus (r : Regex)
| Star (r : Regex)
| Opt (r : Regex).

Definition showItem (i : CharItem) : string :=
  match i with
  | Single c => String c ""
  | Range lo hi => String lo (String "-" (String hi ""))
  end.

Definition isMeta (c : ascii) : bool :=
  existsb (Ascii.eqb c) (list_ascii_of_string "\.+*?()|[]{}^$").

Fixpoint show (r : Regex) : string :=
  match r with
  | BeginText => "^"
  | EndText => "$"
  | Lit c => if isMeta c then String "\" (String c "") else String c ""
  | Class items => "[" +:+ String.concat "" (List.map showItem items) +:+ "]"
  | Seq r1 r2 => show r1 +:+ show r2
  | Alt r1 r2 => show r1 +:+ "|" +:+ show r2
  | Group r => "(" +:+ show r +:+ ")"
  | Plus r => show r +:+ "+"
  | Star r => show r +:+ "*"
  | Opt r => show r +:+ "?"
  end.

Definition inItem (c : ascii) (i : CharItem) : bool :=
  match i with
  | Single c' => Ascii.eqb c c'
  | Range lo hi => (nat_of_ascii lo <=? nat_of_ascii c)%nat && (nat_of_ascii c <=? nat_of_ascii hi)%nat
  end.

(** A backtracking matcher: [matchAt r total s k] matches [r] at the
    front of the remaining text [s] of a text of [total] bytes and hands
    what is left to [k].  A repetition goes round again only after its
    body has consumed input. *)
Fixpoint matchAt (r : Regex) (total : nat) (s : list ascii)
    (k : list ascii -> bool) {struct r} : bool :=
  let repeat (body : Regex) :=
    fix again (fuel : nat) (s : list ascii) {struct fuel} : bool :=
      if k s then true else
      match fuel with
      | O => false
      | S fuel' =>
          matchAt body total s (fun s' =>
            if (length s' <? length s)%nat then again fuel' s' else false)
      end in
  match r with
  | BeginText => if (length s =? total)%nat then k s else false
  | EndText => match s with [] => k s | _ => false end
  | Lit c =>
      match s with
      | c' :: s' => if Ascii.eqb c c' then k s' else false
      | [] => false
      end
  | Class items =>
      match s with
      | c' :: s' => if existsb (inItem c') items then k s' else false
      | [] => false
      end
  | Seq r1 r2 => matchAt r1 total s (fun s' => matchAt r2 total s' k)
  | Alt r1 r2 => if matchAt r1 total s k then true else matchAt r2 total s k
  | Group r => matchAt r total s k
  | Plus r => matchAt r total s (fun s' => repeat r (length s') s')
  | Star r => repeat r (length s) s
  | Opt r => if matchAt r total s k then true else k s
  end.

Fixpoint suffixes (s : list ascii) : list (list ascii) :=
  match s with
  | [] => [[]]
  | _ :: s' => s :: suffixes s'
  end.

(** [regexp.MatchString]: the pattern matches somewhere in the text. *)
Definition MatchString (r : Regex) (text : string) : bool :=
  let s := list_ascii_of_string text in
  existsb (fun suffix => matchAt r (length s) suffix (fun _ => true)) (suffixes s).

(** *** JSON values and the schema *)

Inductive JSON : Type :=
| JNull
| JBool (b : bool)
| JNumber (n : Z)
| JString (s : string)
| JArray (elems : list JSON)
| JObject (fields : list (string * JSON)).

(** [apiextv1beta1.JSONSchemaProps], the fields [deployCRD] sets.  An
    unset [Type], [Format] is the empty string, an unset pointer is
    [None]; [Properties] is a Go map, here its entries. *)
Inductive JSONSchemaProps : Type := {
  Type_ : string;
  Format : string;
  Required : list string;
  MaxItems : option Z;
  MaxLength : option Z;
  Pattern : option Regex;
  Items : option JSONSchemaProps;
  Properties : list (string * JSONSchemaProps)
}.

Record CustomResourceDefinitionVersion : Type := {
  VersionName : string;
  Served : bool;
  Storage : bool;
  Schema : JSONSchemaProps
}.

Definition typed (t : string) : JSONSchemaProps :=
  {| Type_ := t; Format := ""; Required := []; MaxItems := None; MaxLength := None;
     Pattern := None; Items := None; Properties := [] |}.

Definition object (props : list (string * JSONSchemaProps)) : JSONSchemaProps :=
  {| Type_ := ""; Format := ""; Required := []; MaxItems := None; MaxLength := None;
     Pattern := None; Items := None; Properties := props |}.

Definition alnum : list CharItem := [Range "a" "z"; Range "A" "Z"; Range "0" "9"].
Definition alnumDash : list CharItem := Single "-" :: alnum.

(** The text of [domainRegex] in [deployCRD]. *)
Definition domainRegexText : string :=
  "^(([a-zA-Z0-9]+|[a-zA-Z0-9][-a-zA-Z0-9]*[a-zA-Z0-9])\.)+[a-zA-Z][-a-zA-Z0-9]*[a-zA-Z0-9]\.?$".

(** [domainRegex] as a pattern; [show] gives [domainRegexText] back. *)
Definition domainRegex : Regex :=
  Seq BeginText
 (Seq (Plus (Group (Seq (Group (Alt (Plus (Class alnum))
                                    (Seq (Class alnum)
                                    (Seq (Star (Class alnumDash)) (Class alnum)))))
                        (Lit "."))))
 (Seq (Class [Range "a" "z"; Range "A" "Z"])
 (Seq (Star (Class alnumDash))
 (Seq (Class alnum)
 (Seq (Opt (Lit "."))
      EndText))))).

Definition maxDomains1 : Z := 1.
Definition maxDomains100 : Z := 100.
Definition maxDomainLength : Z := 63.

(** The ["status"] property, the same in both versions. *)
Definition statusSchema : JSONSchemaProps :=
  object
    [ ("certificateStatus", typed "string");
      ("domainStatus",
        {| Type_ := "array"; Format := ""; Required := []; MaxItems := None;
           MaxLength := None; Pattern := None;
           Items := Some
             {| Type_ := "object"; Format := ""; Required := ["domain"; "status"];
                MaxItems := None; MaxLength := None; Pattern := None; Items := None;
                Properties := [("domain", typed "string"); ("status", typed "string")] |};
           Properties := [] |});
      ("certificateName", typed "string");
      ("expireTime",
        {| Type_ := "string"; Format := "date-time"; Required := []; MaxItems := None;
           MaxLength := None; Pattern := None; Items := None; Properties := [] |}) ].

(** The ["spec"] property; the versions differ in [MaxItems] only. *)
Definition specSchema (maxItems : Z) : JSONSchemaProps :=
  object
    [ ("domains",
        {| Type_ := "array"; Format := ""; Required := []; MaxItems := Some maxItems;
           MaxLength := None; Pattern := None;
           Items := Some
             {| Type_ := "string"; Format := ""; Required := []; MaxItems := None;
                MaxLength := Some maxDomainLength; Pattern := Some domainRegex;
                Items := None; Properties := [] |};
           Properties := [] |}) ].

(** [crd.Spec.Versions] *)
Definition Versions : list CustomResourceDefinitionVersion :=
  [ {| VersionName := "v1beta1"; Served := true; Storage := false;
       Schema := object [("status", statusSchema); ("spec", specSchema maxDomains1)] |};
    {| VersionName := "v1beta2"; Served := true; Storage := true;
       Schema := object [("status", statusSchema); ("spec", specSchema maxDomains100)] |} ].

(** *** Validation of an object against a schema

    The keywords [deployCRD] uses, as the API server checks them: [type],
    [required], [properties], [items], [maxItems], [maxLength] (counted
    in characters) and [pattern].  [format] is not interpreted. *)

(** [utf8.RuneCountInString] on well-formed UTF-8: the bytes that are not
    continuation bytes. *)
Definition RuneCountInString (s : string) : Z :=
  Z.of_nat (length (List.filter (fun c =>
    negb ((128 <=? nat_of_ascii c)%nat && (nat_of_ascii c <? 192)%nat))
    (list_ascii_of_string s))).

Definition hasType (t : string) (v : JSON) : bool :=
  if String.eqb t "" then true else
  match v with
  | JNull => String.eqb t "null"
  | JBool _ => String.eqb t "boolean"
  | JNumber _ => String.eqb t "integer" || String.eqb t "number"
  | JString _ => String.eqb t "string"
  | JArray _ => String.eqb t "array"
  | JObject _ => String.eqb t "object"
  end.

Fixpoint field (name : string) (fields : list (string * JSON)) : option JSON :=
  match fields with
  | [] => None
  | (n, v) :: rest => if String.eqb n name then Some v else field name rest
  end.

Definition atMost (bound : option Z) (n : Z) : bool :=
  match bound with
  | Some b => (n <=? b)%Z
  | None => true
  end.

Fixpoint validate (schema : JSONSchemaProps) (v : JSON) {struct schema} : bool :=
  match schema with
  | Build_JSONSchemaProps type _ required maxItems maxLength pattern items properties =>
      hasType type v &&
      match v with
      | JString s =>
          atMost maxLength (RuneCountInString s) &&
          match pattern with
          | Some r => MatchString r s
          | None => true
          end
      | JArray elems =>
          atMost maxItems (Z.of_nat (length elems)) &&
          match items with
          | Some item => forallb (validate item) elems
          | None => true
          end
      | JObject fields =>
          forallb (fun name => match field name fields with Some _ => true | None => false end)
                  required &&
          (fix each (props : list (string * JSONSchemaProps)) : bool :=
             match props with
             | [] => true
             | (name, sub) :: rest =>
                 match field name fields with
                 | Some fv => validate sub fv
                 | None => true
                 end && each rest
             end) properties
      | _ => true
      end
  end.

(** A managed certificate with the given [spec.domains] and no status, as
    the JSON object the API server validates. *)
Definition withDomains (domains : list string) : JSON :=
  JObject [("spec", JObject [("domains", JArray (List.map JString domains))])].

(** The bound on the number of domains in the schema of a version. *)
Definition schemaOf (version : string) : option JSONSchemaProps :=
  Schema <$> List.find (fun v => String.eqb (VersionName v) version) Versions.

End Crd.

(** ** The deployment of the controller: [e2e/deploy.go] *)

Module Deploy.

Definition clusterRoleBindingName : string := "managed-certificate-role-binding".
Definition clusterRoleName : string := "managed-certificate-role".
Definition deploymentName : string := "managed-certificate-controller".
Definition serviceAccountName : string := "managed-certificate-account".

(** The kinds of objects the functions of [deploy.go] create and delete,
    one for each client of [clients]. *)
Inductive Kind : Type :=
| ServiceAccount
| ClusterRole
| ClusterRoleBinding
| Deployment
| CustomResource.

Global Instance Kind_eq_dec : EqDecision Kind.
Proof. solve_decision. Defined.

(** [rbacv1beta1.PolicyRule], [Subject] and [RoleRef]. *)
Record PolicyRule : Type := {
  APIGroups : list string;
  Resources : list string;
  Verbs : list string
}.

Record Subject : Type := {
  SubjectNamespace : string;
  SubjectName : string;
  SubjectKind : string
}.

Record RoleRef : Type := {
  RefAPIGroup : string;
  RefKind : string;
  RefName : string
}.

(** [corev1.VolumeMount], [Container] and [Volume] (a host path volume),
    and the fields of [appsv1.DeploymentSpec] that [deployController]
    sets. *)
Record VolumeMount : Type := {
  MountName : string;
  MountPath : string;
  ReadOnly : bool
}.

Record Container : Type := {
  ContainerName : string;
  Image : string;
  ImagePullPolicy : string;
  VolumeMounts : list VolumeMount
}.

Record Volume : Type := {
  VolumeName : string;
  HostPath : string;
  HostPathType : option string
}.

Record DeploymentSpec : Type := {
  MatchLabels : list (string * string);
  TemplateLabels : list (string * string);
  PodServiceAccountName : string;
  RestartPolicy : string;
  Containers : list Container;
  Volumes : list Volume
}.

(** [apiextv1beta1.CustomResourceDefinition], the fields [deployCRD]
    sets. *)
Record CustomResourceDefinition : Type := {
  CrdName : string;
  Group : string;
  CrdVersions : list Crd.CustomResourceDefinitionVersion;
  Plural : string;
  Singular : string;
  CrdKind : string;
  ShortNames : list string;
  Scope : string
}.

Inductive Object : Type :=
| ObjServiceAccount (name : string)
| ObjClusterRole (name : string) (rules : list PolicyRule)
| ObjClusterRoleBinding (name : string) (subjects : list Subject) (roleRef : RoleRef)
| ObjDeployment (name : string) (spec : DeploymentSpec)
| ObjCustomResourceDefinition (crd : CustomResourceDefinition).

Definition kindOf (obj : Object) : Kind :=
  match obj with
  | ObjServiceAccount _ => ServiceAccount
  | ObjClusterRole _ _ => ClusterRole
  | ObjClusterRoleBinding _ _ _ => ClusterRoleBinding
  | ObjDeployment _ _ => Deployment
  | ObjCustomResourceDefinition _ => CustomResource
  end.

Definition nameOf (obj : Object) : string :=
  match obj with
  | ObjServiceAccount name => name
  | ObjClusterRole name _ => name
  | ObjClusterRoleBinding name _ _ => name
  | ObjDeployment name _ => name
  | ObjCustomResourceDefinition crd => CrdName crd
  end.

(** [crd.Status.Conditions], read by the check [deployCRD] polls. *)
Record Condition : Type := {
  ConditionType : string;
  ConditionStatus : string
}.

Definition Established : string := "Established".
Definition ConditionTrue : string := "True".

(** The calls made on [clients]. *)
Inductive Call : Type :=
| CallDelete (kind : Kind) (name : string)
| CallCreate (obj : Object)
| CallGet (name : string).

(** The cluster API behind [clients], over a cluster state [K]: [Delete]
    and [Create] of each client, and [Get] of the custom resource client,
    which returns the conditions of the definition it fetched. *)
Record Api (K : Type) : Type := {
  ApiDelete : Kind -> string -> K -> option error * K;
  ApiCreate : Object -> K -> option error * K;
  ApiGet : string -> K -> (list Condition * option error) * K
}.
Arguments ApiDelete {K}.
Arguments ApiCreate {K}.
Arguments ApiGet {K}.

(** The cluster, the calls made on it with the error each returned, in
    call order, and the lines of [klog.Infof]. *)
Record World (K : Type) : Type := {
  cluster : K;
  calls : list (Call * option error);
  klog : list string
}.
Arguments cluster {K}.
Arguments calls {K}.
Arguments klog {K}.

Section WithClients.

Context {K : Type}.
Variable clients : Api K.

(** [utils.Retry] is not among the sources; it is given the check to poll
    and returns an error. *)
Variable Retry : M (World K) (option error) -> M (World K) (option error).

Definition Infof (line : string) : M (World K) unit :=
  modify (fun w =>
    {| cluster := cluster w; calls := calls w; klog := klog w ++ [line] |}).

Definition Delete (kind : Kind) (name : string) : M (World K) (option error) :=
  fun w =>
    let (err, k') := ApiDelete clients kind name (cluster w) in
    (err, {| cluster := k'; calls := calls w ++ [(CallDelete kind name, err)];
             klog := klog w |}).

Definition Create (obj : Object) : M (World K) (option error) :=
  fun w =>
    let (err, k') := ApiCreate clients obj (cluster w) in
    (err, {| cluster := k'; calls := calls w ++ [(CallCreate obj, err)];
             klog := klog w |}).

Definition Get (name : string) : M (World K) (list Condition * option error) :=
  fun w =>
    let '(conditions, err, k') := ApiGet clients name (cluster w) in
    ((conditions, err),
     {| cluster := k'; calls := calls w ++ [(CallGet name, err)]; klog := klog w |}).

(** The definition [deployCRD] builds. *)
Definition crd : CustomResourceDefinition :=
  {| CrdName := "managedcertificates.networking.gke.io";
     Group := "networking.gke.io";
     CrdVersions := Crd.Versions;
     Plural := "managedcertificates";
     Singular := "managedcertificate";
     CrdKind := "ManagedCertificate";
     ShortNames := ["mcrt"];
     Scope := "Namespaced" |}.

(** The function [deployCRD] hands to [utils.Retry]. *)
Definition established : M (World K) (option error) :=
  let* (conditions, err) := Get (CrdName crd) in
  match err with
  | Some e =>
      ret (Some (Other ("ManagedCertificate CRD not yet established: " +:+ Error e)))
  | None =>
      if existsb (fun c => String.eqb (ConditionType c) Established &&
                           String.eqb (ConditionStatus c) ConditionTrue) conditions
      then ret None
      else ret (Some (Other "ManagedCertificate CRD not yet established"))
  end.

(** [func deployCRD() error] *)
Definition deployCRD : M (World K) (option error) :=
  let* err := Delete CustomResource (CrdName crd) in
  match IgnoreNotFound err with
  | Some e => ret (Some e)
  | None =>
      let* err := Create (ObjCustomResourceDefinition crd) in
      match err with
      | Some e => ret (Some e)
      | None =>
          Infof ("Created custom resource definition " +:+ CrdName crd) ;;
          let* err := Retry established in
          match err with
          | Some e => ret (Some e)
          | None => ret None
          end
      end
  end.

(** [func deleteController() error] *)
Definition deleteController : M (World K) (option error) :=
  let* err := Delete ServiceAccount serviceAccountName in
  match IgnoreNotFound err with
  | Some e => ret (Some e)
  | None =>
  Infof ("Deleted service account " +:+ serviceAccountName) ;;
  let* err := Delete ClusterRole clusterRoleName in
  match IgnoreNotFound err with
  | Some e => ret (Some e)
  | None =>
  Infof ("Deleted cluster role " +:+ clusterRoleName) ;;
  let* err := Delete ClusterRoleBinding clusterRoleBindingName in
  match IgnoreNotFound err with
  | Some e => ret (Some e)
  | None =>
  Infof ("Deleted cluster role binding " +:+ clusterRoleBindingName) ;;
  let* err := Delete Deployment deploymentName in
  match IgnoreNotFound err with
  | Some e => ret (Some e)
  | None =>
  Infof ("Deleted deployment " +:+ deploymentName) ;;
  ret None
  end end end end.

(** The objects [deployController] builds. *)
Definition serviceAccount : Object := ObjServiceAccount serviceAccountName.

Definition clusterRole : Object :=
  ObjClusterRole clusterRoleName
    [ {| APIGroups := ["networking.gke.io"];
         Resources := ["managedcertificates"];
         Verbs := ["*"] |};
      {| APIGroups := [""; "extensions"];
         Resources := ["configmaps"; "endpoints"; "events"; "ingresses"];
         Verbs := ["*"] |} ].

Definition clusterRoleBinding : Object :=
  ObjClusterRoleBinding clusterRoleBindingName
    [ {| SubjectNamespace := "default"; SubjectName := serviceAccountName;
         SubjectKind := "ServiceAccount" |} ]
    {| RefAPIGroup := "rbac.authorization.k8s.io"; RefKind := "ClusterRole";
       RefName := clusterRoleName |}.

Definition appCtrl : list (string * string) := [("app", deploymentName)].

Definition image (tag : string) : string :=
  "eu.gcr.io/managed-certs-gke/managed-certificate-controller:" +:+ tag.

Definition sslCertsVolume : string := "ssl-certs".
Definition sslCertsVolumePath : string := "/etc/ssl/certs".
Definition usrShareCaCertsVolume : string := "usrsharecacerts".
Definition usrShareCaCertsVolumePath : string := "/usr/share/ca-certificates".
Definition logFileVolume : string := "logfile".
Definition logFileVolumePath : string := "/var/log/managed_certificate_controller.log".

Definition deployment (tag : string) : Object :=
  ObjDeployment deploymentName
    {| MatchLabels := appCtrl;
       TemplateLabels := appCtrl;
       PodServiceAccountName := serviceAccountName;
       RestartPolicy := "Always";
       Containers :=
         [ {| ContainerName := deploymentName;
              Image := image tag;
              ImagePullPolicy := "Always";
              VolumeMounts :=
                [ {| MountName := sslCertsVolume; MountPath := sslCertsVolumePath;
                     ReadOnly := true |};
                  {| MountName := usrShareCaCertsVolume;
                     MountPath := usrShareCaCertsVolumePath; ReadOnly := true |};
                  {| MountName := logFileVolume; MountPath := logFileVolumePath;
                     ReadOnly := false |} ] |} ];
       Volumes :=
         [ {| VolumeName := sslCertsVolume; HostPath := sslCertsVolumePath;
              HostPathType := None |};
           {| VolumeName := usrShareCaCertsVolume; HostPath := usrShareCaCertsVolumePath;
              HostPathType := None |};
           {| VolumeName := logFileVolume; HostPath := logFileVolumePath;
              HostPathType := Some "FileOrCreate" |} ] |}.

(** [func deployController(tag string) error] *)
Definition deployController (tag : string) : M (World K) (option error) :=
  let* err := deleteController in
  match err with
  | Some e => ret (Some e)
  | None =>
  let* err := Create serviceAccount in
  match err with
  | Some e => ret (Some e)
  | None =>
  Infof ("Created service account " +:+ serviceAccountName) ;;
  let* err := Create clusterRole in
  match err with
  | Some e => ret (Some e)
  | None =>
  Infof ("Created cluster role " +:+ clusterRoleName) ;;
  let* err := Create clusterRoleBinding in
  match err with
  | Some e => ret (Some e)
  | None =>
  Infof ("Created cluster role binding " +:+ clusterRoleBindingName) ;;
  let* err := Create (deployment tag) in
  match err with
  | Some e => ret (Some e)
  | None =>
  Infof ("Created deployment " +:+ deploymentName) ;;
  ret None
  end end end end end.

End WithClients.

End Deploy.

(** ** Concrete collaborators, used to run the code on examples *)

Module Fake.

(** An in-memory provisioning backend: the certificates it holds, the
    number of certificates its quota allows, and whether it is out of
    order.  Out of order, every call fails; [Exists] and [Get] then still
    answer from what the backend last held, together with the error. *)
Record Backend : Type := {
  certs : list SslCertificate;
  quota : nat;
  outOfOrder : bool
}.

Definition unavailable : error := Other "backend unavailable".

Definition named (name : string) (cert : SslCertificate) : bool :=
  String.eqb (SslName cert) name.

Definition create (name : string) (domains : list string) (b : Backend)
  : option error * Backend :=
  if outOfOrder b then (Some unavailable, b)
  else if (quota b <=? length (certs b))%nat then (Some QuotaExceeded, b)
  else if existsb (named name) (certs b) then (Some (Other "already exists"), b)
  else (None, {| certs := certs b ++ [{| SslName := name; SslDomains := domains;
                                         SslStatus := "PROVISIONING" |}];
                 quota := quota b; outOfOrder := false |}).

Definition delete (name : string) (b : Backend) : option error * Backend :=
  if outOfOrder b then (Some unavailable, b)
  else if existsb (named name) (certs b)
  then (None, {| certs := List.filter (fun c => negb (named name c)) (certs b);
                 quota := quota b; outOfOrder := false |})
  else (Some NotFound, b).

Definition exists_ (name : string) (b : Backend) : (bool * option error) * Backend :=
  ((existsb (named name) (certs b), if outOfOrder b then Some unavailable else None), b).

Definition get (name : string) (b : Backend)
  : (option SslCertificate * option error) * Backend :=
  match List.find (named name) (certs b) with
  | Some cert => ((Some cert, if outOfOrder b then Some unavailable else None), b)
  | None => ((None, Some (if outOfOrder b then unavailable else NotFound)), b)
  end.

Definition client : Manager.Ssl Backend :=
  {| Manager.SslCreate := create; Manager.SslDelete := delete;
     Manager.SslExists := exists_; Manager.SslGet := get |}.

Definition world (b : Backend) : Manager.World Backend :=
  {| Manager.backend := b; Manager.events := []; Manager.infolog := [] |}.

Definition cert (name : string) : SslCertificate :=
  {| SslName := name; SslDomains := ["a.example.com"]; SslStatus := "ACTIVE" |}.

Definition mcrt (namespace name certName : string) : ManagedCertificate :=
  {| Namespace := namespace; Name := name; Domains := ["a.example.com"];
     CertificateName := certName |}.

(** A backend holding [cert-a], with room for one more certificate. *)
Definition oneCert : Backend :=
  {| certs := [cert "cert-a"]; quota := 2; outOfOrder := false |}.

(** The same backend with its quota used up. *)
Definition full : Backend :=
  {| certs := [cert "cert-a"]; quota := 1; outOfOrder := false |}.

(** The same backend out of order. *)
Definition down : Backend :=
  {| certs := [cert "cert-a"]; quota := 2; outOfOrder := true |}.

(** *** Controllers *)

Definition provider (names : list string) (deleteFails : string -> option error)
  : Mcert.Provider :=
  {| Mcert.Items := cert <$> names; Mcert.ListFails := None;
     Mcert.DeleteFails := deleteFails; Mcert.DeleteCalls := [] |}.

Definition controller (listed : list ManagedCertificate)
    (entries : list (string * string)) (p : Mcert.Provider) : Mcert.McertController :=
  {| Mcert.lister := (listed, None);
     Mcert.state := list_to_map entries;
     Mcert.sslClient := p;
     Mcert.queue := []; Mcert.handled := []; Mcert.infolog := [] |}.

(** The scenario of the specification: resource [ns/a] with the entry
    [a -> cert-a], and the provider holding [cert-a] and [cert-orphan]. *)
Definition scenario : Mcert.McertController :=
  controller [mcrt "ns" "a" "cert-a"] [("a", "cert-a")]
    (provider ["cert-a"; "cert-orphan"] (fun _ => None)).

(** Resource [ns/gone] was deleted by the user; the provider refuses to
    delete [cert-orphan] and deletes anything else. *)
Definition stuck : Mcert.McertController :=
  controller [mcrt "ns" "a" "cert-a"] [("a", "cert-a"); ("gone", "cert-gone")]
    (provider ["cert-orphan"; "cert-a"; "cert-gone"]
       (fun name => if String.eqb name "cert-orphan" then Some unavailable else None)).

(** The state store pruned already, against the same provider, and
    against a provider that deletes whatever it is asked to. *)
Definition pruned : Mcert.McertController :=
  controller [mcrt "ns" "a" "cert-a"] [("a", "cert-a")]
    (provider ["cert-orphan"; "cert-a"; "cert-gone"]
       (fun name => if String.eqb name "cert-orphan" then Some unavailable else None)).

Definition prunedWilling : Mcert.McertController :=
  controller [mcrt "ns" "a" "cert-a"] [("a", "cert-a")]
    (provider ["cert-orphan"; "cert-a"; "cert-gone"] (fun _ => None)).

(** The provider cannot be listed. *)
Definition listDown : Mcert.McertController :=
  controller [mcrt "ns" "a" "cert-a"] [("a", "cert-a")]
    {| Mcert.Items := [cert "cert-a"]; Mcert.ListFails := Some unavailable;
       Mcert.DeleteFails := fun _ => None; Mcert.DeleteCalls := [] |}.

(** Two resources of the same name in two namespaces. *)
Definition sameName : Mcert.McertController :=
  controller [mcrt "ns1" "a" "cert-1"; mcrt "ns2" "a" "cert-2"] []
    (provider [] (fun _ => None)).

(** The informer cache cannot be listed. *)
Definition cacheDown : Mcert.McertController :=
  {| Mcert.lister := ([], Some (Other "cache unavailable"));
     Mcert.state := ∅; Mcert.sslClient := provider [] (fun _ => None);
     Mcert.queue := []; Mcert.handled := []; Mcert.infolog := [] |}.

(** *** Clusters *)

(** A cluster that holds the kind and name of each of its objects.
    Deleting an object that is not there is "not found", creating one that
    is there fails, and a custom resource definition is established as soon
    as it is there. *)
Definition Cluster : Type := list (Deploy.Kind * string).

Definition clusterDelete (kind : Deploy.Kind) (name : string) (k : Cluster)
  : option error * Cluster :=
  if bool_decide ((kind, name) ∈ k)
  then (None, List.filter (fun o => negb (bool_decide (o = (kind, name)))) k)
  else (Some NotFound, k).

Definition clusterCreate (obj : Deploy.Object) (k : Cluster) : option error * Cluster :=
  if bool_decide ((Deploy.kindOf obj, Deploy.nameOf obj) ∈ k)
  then (Some (Other "already exists"), k)
  else (None, k ++ [(Deploy.kindOf obj, Deploy.nameOf obj)]).

Definition clusterGet (name : string) (k : Cluster)
  : (list Deploy.Condition * option error) * Cluster :=
  if bool_decide ((Deploy.CustomResource, name) ∈ k)
  then (([ {| Deploy.ConditionType := Deploy.Established;
              Deploy.ConditionStatus := Deploy.ConditionTrue |} ], None), k)
  else (([], Some NotFound), k).

Definition api : Deploy.Api Cluster :=
  {| Deploy.ApiDelete := clusterDelete; Deploy.ApiCreate := clusterCreate;
     Deploy.ApiGet := clusterGet |}.

(** The same cluster, refusing to delete cluster role bindings. *)
Definition guarded : Deploy.Api Cluster :=
  {| Deploy.ApiDelete := fun kind name k =>
       match kind with
       | Deploy.ClusterRoleBinding => (Some (Other "forbidden"), k)
       | _ => clusterDelete kind name k
       end;
     Deploy.ApiCreate := clusterCreate;
     Deploy.ApiGet := clusterGet |}.

Definition onCluster (k : Cluster) : Deploy.World Cluster :=
  {| Deploy.cluster := k; Deploy.calls := []; Deploy.klog := [] |}.

(** A retry that runs the check up to three times. *)
Fixpoint retryTimes (n : nat) (check : M (Deploy.World Cluster) (option error))
  : M (Deploy.World Cluster) (option error) :=
  match n with
  | O => ret (Some (Other "timed out"))
  | S n' =>
      let* err := check in
      match err with
      | None => ret None
      | Some _ => retryTimes n' check
      end
  end.

Definition retry : M (Deploy.World Cluster) (option error)
  -> M (Deploy.World Cluster) (option error) := retryTimes 3.

End Fake.

(** ** Vocabulary of the statements *)

(** A Go map after the assignments [m[key x] = val x], for [x] ranging
    over a slice. *)
Definition assignAll {A V} (key : A -> string) (val : A -> V)
    (m : gmap string V) (xs : list A) : gmap string V :=
  foldl (fun m x => <[key x := val x]> m) m xs.

Section McertVocabulary.

Import Mcert.

(** The key [enqueue] computes for a managed certificate. *)
Definition queueKey (mcert : ManagedCertificate) : string :=
  fst (MetaNamespaceKeyFunc (ObjMcert mcert)).

(** The loop of [deleteObsoleteMcertsFromState], on the state store. *)
Definition prune (all : gmap string ManagedCertificate) (st : gmap string string)
    (keys : list string) : gmap string string :=
  foldl (fun st k => match all !! k with None => Delete k st | Some _ => st end) st keys.

(** Whether no entry of the state store refers to a certificate name. *)
Definition isOrphan (st : gmap string string) (name : string) : bool :=
  negb (bool_decide (name ∈ GetAllSslCertificates st)).

(** One round of the loop of [deleteObsoleteSslCertificates], on the
    provider. *)
Definition sweepStep (orphan : string -> bool) (p : Provider) (cert : SslCertificate)
  : Provider :=
  if orphan (SslName cert) then snd (providerDelete (SslName cert) p) else p.

(** The line [deleteObsoleteSslCertificates] logs for a certificate name. *)
Definition deletedLine (name : string) : string :=
  "Deleted " +:+ name +:+ " SslCertificate resource, because there is no such ssl certificate in state".

(** The deletions requested from the provider during a step from [c] to [c']. *)
Definition newDeleteCalls (c c' : McertController) : list string :=
  drop (length (DeleteCalls (sslClient c))) (DeleteCalls (sslClient c')).

(** The keys handed to the queue during a step from [c] to [c']. *)
Definition newQueueKeys (c c' : McertController) : list string :=
  drop (length (queue c)) (queue c').

(** C3, as stated: after a pass with both listings succeeding, no entry
    is left under a key absent from the listing, no unreferenced
    certificate is left at the provider, and every referenced certificate
    is still there. *)
Definition resync_leaves_no_orphan (c : McertController) : Prop :=
  forall mcerts,
    lister c = (mcerts, None) -> ListFails (sslClient c) = None ->
    let c' := snd (synchronizeAllMcerts c) in
    (forall k, k ∉ Name <$> mcerts -> state c' !! k = None) /\
    (forall cert, cert ∈ Items (sslClient c) ->
       SslName cert ∉ GetAllSslCertificates (state c') ->
       SslName cert ∉ SslName <$> Items (sslClient c')) /\
    (forall cert, cert ∈ Items (sslClient c) ->
       SslName cert ∈ GetAllSslCertificates (state c') ->
       cert ∈ Items (sslClient c')).

(** C4, as stated: the one entry that [initializeState] stores for a
    resource is stored under the key that [enqueue] hands to the queue. *)
Definition state_key_is_queue_key (mcert : ManagedCertificate) : Prop :=
  forall c,
    lister c = ([mcert], None) -> state c = ∅ ->
    GetAllManagedCertificates (state (snd (initializeState c))) =
    newQueueKeys c (snd (enqueue (ObjMcert mcert) c)).

(** C5, as stated: every key of the listing taken by a pass is handed to
    the queue exactly once during that pass. *)
Definition resync_enqueues_every_key_once (c : McertController) : Prop :=
  forall mcerts,
    lister c = (mcerts, None) ->
    forall mcert, mcert ∈ mcerts ->
      length (List.filter (String.eqb (queueKey mcert))
                (newQueueKeys c (snd (synchronizeAllMcerts c)))) = 1.

End McertVocabulary.

Section SupervisorVocabulary.

Import Supervisor.

(** [McertController.Run] has not reached its first [go] statement. *)
Definition beforeLoops (pc : McertPc) : bool :=
  match pc with
  | NotSpawned | InitializeState | GoWorker => true
  | _ => false
  end.

(** [McertController.Run] is past a successful [initializeState]. *)
Definition pastInit (pc : McertPc) : bool :=
  match pc with
  | GoResync | WaitStop | McertReturned => true
  | _ => false
  end.

(** [McertController.Run] is sending its error or has returned. *)
Definition failed (pc : McertPc) : bool :=
  match pc with
  | SendError _ | McertReturned => true
  | _ => false
  end.

Definition sending (pc : McertPc) : bool :=
  match pc with
  | SendError _ => true
  | _ => false
  end.

(** [Controller.Run] has not executed [go c.Mcert.Run(...)] yet, or has
    given up on the cache. *)
Definition beforeSpawn (pc : MainPc) : bool :=
  match pc with
  | WaitForCacheSync | GoMcertRun | Returned (Some _) => true
  | _ => false
  end.

(** [Controller.Run] has executed [go c.Ingress.Run(...)]. *)
Definition pastGoIngress (pc : MainPc) : bool :=
  match pc with
  | GoIngressWorker | Select | QuitMcert | QuitIngress | Returned None => true
  | _ => false
  end.

(** [Controller.Run] has executed its three [go] statements. *)
Definition atSelectOrLater (pc : MainPc) : bool :=
  match pc with
  | Select | QuitMcert | QuitIngress | Returned None => true
  | _ => false
  end.

(** [Controller.Run] has got its send on [mcertStopChannel] through. *)
Definition pastQuitMcert (pc : MainPc) : bool :=
  match pc with
  | QuitIngress | Returned None => true
  | _ => false
  end.

(** The invariant of the reachable states. *)
Record inv (s : State) : Prop := {
  inv_loops :
    beforeLoops (mcertPc s) = true \/ is_Some (initError s) ->
    (WorkerLoop ∉ started s) /\ (ResyncLoop ∉ started s);
  inv_failed : is_Some (initError s) -> failed (mcertPc s) = true;
  inv_sending : sending (mcertPc s) = true -> is_Some (initError s);
  inv_spawn : beforeSpawn (mainPc s) = true -> mcertPc s = NotSpawned;
  inv_ingress : pastGoIngress (mainPc s) = true -> IngressLoop ∈ started s;
  inv_ingress_worker :
    atSelectOrLater (mainPc s) = true -> IngressWorkerLoop ∈ started s;
  inv_quit :
    pastQuitMcert (mainPc s) = true ->
    initError s = None /\ pastInit (mcertPc s) = true;
  inv_ran : forall l, l ∈ ran s -> l ∈ started s
}.


(** A run in which the informer cache cannot be listed: [initializeState]
    fails, after which [Controller.Run] starts the ingress loop, which runs
    a round, and the ingress worker, and waits in its [select]. *)
Definition failedRun : State :=
  {| mainPc := Select;
     mcertPc := SendError (initErrorf (Other "cache unavailable"));
     controller := Fake.cacheDown;
     started := [IngressLoop; IngressWorkerLoop];
     stopped := [];
     ran := [IngressLoop];
     initError := Some (Other "cache unavailable");
     reported := [] |}.

End SupervisorVocabulary.

Section CrdVocabulary.

Import Crd.

(** What the schema of [spec.domains] asks of one domain. *)
Definition domainOk (d : string) : bool :=
  (RuneCountInString d <=? maxDomainLength)%Z && MatchString domainRegex d.

(** C10, as stated: the first variant of the schema takes a list of
    exactly one domain. *)
Definition first_variant_takes_exactly_one : Prop :=
  forall schema domains,
    schemaOf "v1beta1" = Some schema ->
    validate schema (withDomains domains) = true ->
    length domains = 1.

End CrdVocabulary.

Section SupervisorFurtherVocabulary.

Import Supervisor.

(** [Controller.Run] has left its [select]. *)
Definition pastSelect (pc : MainPc) : bool :=
  match pc with
  | QuitMcert | QuitIngress | Returned None => true
  | _ => false
  end.

(** More of what holds in every reachable state of a run started on the
    controller [c0]. *)
Record inv2 (c0 : Mcert.McertController) (s : State) : Prop := {
  inv2_pristine :
    beforeSpawn (mainPc s) = true ->
    started s = [] /\ ran s = [] /\ stopped s = [] /\ reported s = [] /\
    initError s = None /\ controller s = c0;
  inv2_timeout :
    forall e, mainPc s = Returned (Some e) ->
    e = Other "Timed out waiting for cache sync";
  inv2_once : NoDup (started s);
  inv2_no_ingress : pastGoIngress (mainPc s) = false -> IngressLoop ∉ started s;
  inv2_no_ingress_worker :
    atSelectOrLater (mainPc s) = false -> IngressWorkerLoop ∉ started s;
  inv2_no_resync : mcertPc s = GoResync -> ResyncLoop ∉ started s;
  inv2_worker_first :
    mcertPc s = GoResync \/ mcertPc s = WaitStop -> WorkerLoop ∈ started s;
  inv2_order : ResyncLoop ∈ started s -> WorkerLoop ∈ started s;
  inv2_ingress_order : IngressWorkerLoop ∈ started s -> IngressLoop ∈ started s;
  inv2_stopped :
    WorkerLoop ∈ stopped s \/ ResyncLoop ∈ stopped s ->
    pastQuitMcert (mainPc s) = true /\ mcertPc s <> McertReturned;
  inv2_one_stop : ~ (WorkerLoop ∈ stopped s /\ ResyncLoop ∈ stopped s);
  inv2_ingress_stop : IngressLoop ∈ stopped s -> mainPc s = Returned None;
  inv2_returned :
    mcertPc s = McertReturned ->
    is_Some (initError s) \/ pastQuitMcert (mainPc s) = true;
  inv2_sent :
    forall x, mcertPc s = SendError x ->
    exists e, initError s = Some e /\ x = initErrorf e;
  inv2_quiet : pastSelect (mainPc s) = false -> reported s = [];
  inv2_reported :
    reported s = [] \/
    exists e, initError s = Some e /\ reported s = [initErrorf e]
}.

(** A run that gives up on the cache. *)
Definition timedOutRun (c : Mcert.McertController) : State :=
  setMain (Returned (Some (Other "Timed out waiting for cache sync"))) (start c).

(** A run on the scenario of the specification in which the stop signal
    arrives while [McertController.Run] is between its two [go] statements:
    the worker loop takes the one value sent on [mcertStopChannel], and the
    resync loop is started afterwards. *)
Definition stoppedRun : State :=
  {| mainPc := QuitIngress;
     mcertPc := WaitStop;
     controller := snd (Mcert.initializeState Fake.scenario);
     started := [IngressLoop; WorkerLoop; IngressWorkerLoop; ResyncLoop];
     stopped := [WorkerLoop];
     ran := [];
     initError := None;
     reported := [] |}.

End SupervisorFurtherVocabulary.

Section SupervisorReportVocabulary.

Import Supervisor.



End SupervisorReportVocabulary.

Section CrdFurtherVocabulary.

Import Crd.

(** The characters a pattern can consume. *)
Fixpoint alphabet (r : Regex) (c : ascii) : bool :=
  match r with
  | BeginText | EndText => false
  | Lit c' => Ascii.eqb c' c
  | Class items => existsb (inItem c) items
  | Seq r1 r2 | Alt r1 r2 => alphabet r1 c || alphabet r2 c
  | Group r | Plus r | Star r | Opt r => alphabet r c
  end.

(** The pattern can only match at the start of the text. *)
Fixpoint anchoredStart (r : Regex) : bool :=
  match r with
  | BeginText => true
  | Seq r1 _ => anchoredStart r1
  | Alt r1 r2 => anchoredStart r1 && anchoredStart r2
  | Group r | Plus r => anchoredStart r
  | _ => false
  end.

(** The pattern can only match up to the end of the text. *)
Fixpoint anchoredEnd (r : Regex) : bool :=
  match r with
  | EndText => true
  | Seq _ r2 => anchoredEnd r2
  | Alt r1 r2 => anchoredEnd r1 && anchoredEnd r2
  | Group r => anchoredEnd r
  | _ => false
  end.

(** A letter, a digit, a hyphen or a dot. *)
Definition domainChar (c : ascii) : bool :=
  existsb (inItem c) (Single "." :: alnumDash).

(** A managed certificate whose [spec.domains] is any JSON value. *)
Definition withSpecDomains (v : JSON) : JSON :=
  JObject [("spec", JObject [("domains", v)])].

(** A managed certificate whose [status.domainStatus] holds the given
    items. *)
Definition withDomainStatus (items : list JSON) : JSON :=
  JObject [("status", JObject [("domainStatus", JArray items)])].

(** An item of [domainStatus] with both of its fields, both strings. *)
Definition domainStatusItem (item : JSON) : Prop :=
  exists fields domain status,
    item = JObject fields /\
    field "domain" fields = Some (JString domain) /\
    field "status" fields = Some (JString status).

End CrdFurtherVocabulary.

Section DeployVocabulary.

Import Deploy.

(** The deletions of [deleteController] and the creations of
    [deployController], in the order of the source. *)
Definition deletions : list Call :=
  [ CallDelete ServiceAccount serviceAccountName;
    CallDelete ClusterRole clusterRoleName;
    CallDelete ClusterRoleBinding clusterRoleBindingName;
    CallDelete Deployment deploymentName ].

Definition creations (tag : string) : list Call :=
  CallCreate <$> [serviceAccount; clusterRole; clusterRoleBinding; deployment tag].

(** The two calls by which [deployCRD] installs the definition. *)
Definition installation : list Call :=
  [ CallDelete CustomResource (CrdName crd);
    CallCreate (ObjCustomResourceDefinition crd) ].

(** A call went through: a deletion that returned [nil] or "not found",
    any other call that returned [nil]. *)
Definition wentThrough (r : Call * option error) : Prop :=
  match fst r with
  | CallDelete _ _ => IgnoreNotFound (snd r) = None
  | _ => snd r = None
  end.

(** The calls made are a run of the script that stops at the first call
    that does not go through: with result [nil] the whole script was called
    and every call went through; with an error the calls are the script up
    to some call, that call returned the error and did not go through, and
    every call before it did. *)
Definition runOf (script : list Call) (made : list (Call * option error))
    (result : option error) : Prop :=
  match result with
  | None => fst <$> made = script /\ Forall wentThrough made
  | Some e =>
      exists before c,
        made = before ++ [(c, Some e)] /\
        (fst <$> made) `prefix_of` script /\
        Forall wentThrough before /\
        ~ wentThrough (c, Some e)
  end.

(** A condition that makes the definition established. *)
Definition isEstablished (c : Condition) : Prop :=
  ConditionType c = Established /\ ConditionStatus c = ConditionTrue.

End DeployVocabulary.

(** Membership in a concrete list, decided by evaluation. *)
Ltac by_evaluation := apply (bool_decide_unpack _); vm_compute; exact I.

(** * Properties of the certificate lifecycle manager *)

Section ManagerProperties.

Import Manager.
Context {B : Type}.
Variable client : Ssl B.

Local Ltac run :=
  unfold Create, Delete, Exists, Get, ifNotNil, callSsl, emit, Infof, modify, bind, ret;
  simpl.

(** The events after [Delete] with a resource context, by the three
    classes of backend result. *)
Lemma Delete_with_context name m w res b' :
  SslDelete client name (backend w) = (res, b') ->
  fst (Delete client name (Some m) w) = IgnoreNotFound res /\
  backend (snd (Delete client name (Some m) w)) = b' /\
  events (snd (Delete client name (Some m) w)) =
    events w ++ [match IgnoreNotFound res with
                 | Some e => EvBackendError m e
                 | None => EvDelete m name
                 end].
Proof.
  intros Hcall. run. rewrite Hcall.
  destruct (IgnoreNotFound res); simpl; auto.
Qed.

(** C6.  [Create]: a quota-exceeded error of the backend gives exactly
    one TooManyCertificates notification and is returned; any other error
    gives exactly one BackendError notification and is returned; success
    gives exactly one Create notification and [nil] is returned. *)
Theorem Create_notifications name mcrt w res b' :
  SslCreate client name (Domains mcrt) (backend w) = (res, b') ->
  let out := Create client name mcrt w in
  fst out = res /\
  backend (snd out) = b' /\
  match res with
  | Some e =>
      if IsQuotaExceeded e
      then events (snd out) = events w ++ [EvTooManyCertificates mcrt e]
      else events (snd out) = events w ++ [EvBackendError mcrt e]
  | None => events (snd out) = events w ++ [EvCreate mcrt name]
  end.
Proof.
  intros Hcall. run. rewrite Hcall.
  destruct res as [e|]; simpl; [destruct (IsQuotaExceeded e); simpl|]; auto.
Qed.

(** C8.  [Delete], [Exists] and [Get] without a resource context (a nil
    [mcrt]) emit no notification, whatever the backend answers. *)
Theorem no_context_no_notification name w :
  events (snd (Delete client name None w)) = events w /\
  events (snd (Exists client name None w)) = events w /\
  events (snd (Get client name None w)) = events w.
Proof.
  run. repeat split.
  - destruct (SslDelete client name (backend w)) as [res b'].
    destruct (IgnoreNotFound res); reflexivity.
  - destruct (SslExists client name (backend w)) as [[found err] b'].
    destruct err; reflexivity.
  - destruct (SslGet client name (backend w)) as [[cert err] b'].
    destruct err; reflexivity.
Qed.

(** C9.  [Exists] never returns [true] together with an error, and [Get]
    never returns a certificate together with an error, even when the
    backend call returned both. *)
Theorem error_results_carry_no_value name mcrt w :
  (snd (fst (Exists client name mcrt w)) <> None ->
     fst (fst (Exists client name mcrt w)) = false) /\
  (snd (fst (Get client name mcrt w)) <> None ->
     fst (fst (Get client name mcrt w)) = None).
Proof.
  run. split.
  - destruct (SslExists client name (backend w)) as [[found err] b'].
    destruct err, mcrt; simpl; congruence.
  - destruct (SslGet client name (backend w)) as [[cert err] b'].
    destruct err, mcrt; simpl; congruence.
Qed.

End ManagerProperties.

(** C6 against a backend whose quota is used up: the error comes back
    and the one notification is TooManyCertificates. *)
Lemma Create_notifications_witness :
  let mcrt := Fake.mcrt "ns" "bar" "" in
  let out := Manager.Create Fake.client "cert-bar" mcrt (Fake.world Fake.full) in
  fst out = Some QuotaExceeded /\
  Manager.backend (snd out) = Fake.full /\
  Manager.events (snd out) = [Manager.EvTooManyCertificates mcrt QuotaExceeded].
Proof.
  exact (Create_notifications Fake.client "cert-bar" (Fake.mcrt "ns" "bar" "")
           (Fake.world Fake.full) (Some QuotaExceeded) Fake.full eq_refl).
Defined.

(** The backend out of order answers [Exists] with [true] and an error;
    the manager returns [false] with that error and one BackendError
    notification. *)
Example Exists_out_of_order :
  let mcrt := Fake.mcrt "ns" "a" "cert-a" in
  Manager.SslExists Fake.client "cert-a" Fake.down = ((true, Some Fake.unavailable), Fake.down) /\
  Manager.Exists Fake.client "cert-a" (Some mcrt) (Fake.world Fake.down) =
    ((false, Some Fake.unavailable),
     {| Manager.backend := Fake.down;
        Manager.events := [Manager.EvBackendError mcrt Fake.unavailable];
        Manager.infolog := [] |}).
Proof. split; reflexivity. Qed.

(** C1.  [Delete] of a certificate the backend does not hold, called with
    a resource context: the backend answers "not found", [Delete] returns
    [nil], and a Delete notification is emitted all the same. *)
Theorem Delete_not_found_emits_Delete :
  let mcrt := Fake.mcrt "ns" "foo" "cert-foo" in
  Manager.SslDelete Fake.client "cert-foo" Fake.oneCert = (Some NotFound, Fake.oneCert) /\
  fst (Manager.Delete Fake.client "cert-foo" (Some mcrt) (Fake.world Fake.oneCert)) = None /\
  Manager.events (snd (Manager.Delete Fake.client "cert-foo" (Some mcrt) (Fake.world Fake.oneCert)))
    = [Manager.EvDelete mcrt "cert-foo"].
Proof.
  intros mcrt. split; [reflexivity|].
  destruct (Delete_with_context Fake.client "cert-foo" mcrt (Fake.world Fake.oneCert)
              (Some NotFound) Fake.oneCert eq_refl) as (Hret & _ & Hev).
  split; [exact Hret | exact Hev].
Qed.

(** * Properties of the managed-certificate controller *)

(** ** Loops as folds *)

Lemma forRange_foldl {W A} (xs : list A) (body : A -> M W unit) (w : W) :
  forRange xs body w = (tt, foldl (fun w x => snd (body x w)) w xs).
Proof.
  revert w. induction xs as [|x xs IH]; intros w; simpl; [reflexivity|].
  unfold bind. destruct (body x w) as [[] w'] eqn:Hbody. simpl. apply IH.
Qed.

Lemma foldl_proj {W A P} (proj : W -> P) (step : W -> A -> W) (pstep : P -> A -> P) :
  (forall w x, proj (step w x) = pstep (proj w) x) ->
  forall xs w, proj (foldl step w xs) = foldl pstep (proj w) xs.
Proof.
  intros Hstep xs. induction xs as [|x xs IH]; intros w; simpl; [reflexivity|].
  rewrite IH, Hstep. reflexivity.
Qed.

Lemma foldl_kept {W A P} (proj : W -> P) (step : W -> A -> W) :
  (forall w x, proj (step w x) = proj w) ->
  forall xs w, proj (foldl step w xs) = proj w.
Proof.
  intros Hstep xs. induction xs as [|x xs IH]; intros w; simpl; [reflexivity|].
  rewrite IH. apply Hstep.
Qed.

Lemma foldl_snoc {A C} (f : A -> C -> A) (a : A) (xs : list C) (x : C) :
  foldl f a (xs ++ [x]) = f (foldl f a xs) x.
Proof. revert a. induction xs; intros; simpl; auto. Qed.

(** ** Maps built by a loop of assignments *)

Section Assignments.

Context {A V : Type}.
Variables (key : A -> string) (val : A -> V).

Lemma assignAll_lookup_other m xs k :
  k ∉ key <$> xs -> assignAll key val m xs !! k = m !! k.
Proof.
  unfold assignAll. induction xs as [|x xs IH] using rev_ind; intros Hk; [reflexivity|].
  rewrite foldl_snoc. rewrite fmap_app in Hk. simpl in Hk.
  rewrite lookup_insert_ne by (intros <-; apply Hk; set_solver).
  apply IH. intros Hin. apply Hk. set_solver.
Qed.

Lemma assignAll_lookup_listed m xs x :
  x ∈ xs -> exists x', x' ∈ xs /\ key x' = key x /\ assignAll key val m xs !! key x = Some (val x').
Proof.
  unfold assignAll. induction xs as [|y xs IH] using rev_ind; intros Hx; [set_solver|].
  rewrite foldl_snoc. destruct (decide (key y = key x)) as [Heq|Hne].
  - exists y. rewrite <- Heq, lookup_insert_eq. set_solver.
  - rewrite lookup_insert_ne by done.
    destruct IH as (x' & Hx' & Hk & Hl); [set_solver|].
    exists x'. set_solver.
Qed.

Lemma assignAll_dom m xs :
  dom (assignAll key val m xs) = dom m ∪ list_to_set (key <$> xs).
Proof.
  unfold assignAll. induction xs as [|y xs IH] using rev_ind; [set_solver|].
  rewrite foldl_snoc, dom_insert_L, IH, fmap_app, list_to_set_app_L. set_solver.
Qed.

Lemma assignAll_NoDup_to_list xs :
  NoDup (key <$> xs) ->
  map_to_list (assignAll key val ∅ xs) ≡ₚ (fun x => (key x, val x)) <$> xs.
Proof.
  unfold assignAll. induction xs as [|y xs IH] using rev_ind; intros Hnd.
  - simpl. by rewrite map_to_list_empty.
  - rewrite foldl_snoc, fmap_app. simpl.
    rewrite fmap_app in Hnd. apply NoDup_app in Hnd as (Hnd & Hfresh & _).
    rewrite map_to_list_insert.
    + rewrite IH by done. by rewrite Permutation_app_comm.
    + fold (assignAll key val ∅ xs). rewrite assignAll_lookup_other; [apply lookup_empty|].
      intros Hin. apply (Hfresh _ Hin). set_solver.
Qed.

End Assignments.

(** ** The provisioning client *)

Section ProviderProperties.

Import Mcert.

Lemma hasName_true name cert : hasName name cert = true <-> SslName cert = name.
Proof. unfold hasName. apply String.eqb_eq. Qed.

Lemma providerDelete_calls name p :
  DeleteCalls (snd (providerDelete name p)) = DeleteCalls p ++ [name].
Proof.
  unfold providerDelete. destruct (DeleteFails p name); [reflexivity|].
  destruct (existsb _ _); reflexivity.
Qed.

Lemma providerDelete_fails name p :
  DeleteFails (snd (providerDelete name p)) = DeleteFails p /\
  ListFails (snd (providerDelete name p)) = ListFails p.
Proof.
  unfold providerDelete. destruct (DeleteFails p name); [done|].
  destruct (existsb _ _); done.
Qed.

(** A certificate is held after [Delete(name)] exactly when it was held
    before and it is not a certificate of that name whose deletion went
    through. *)
Lemma providerDelete_items name p cert :
  cert ∈ Items (snd (providerDelete name p)) <->
  cert ∈ Items p /\ ~ (SslName cert = name /\ DeleteFails p name = None).
Proof.
  unfold providerDelete. destruct (DeleteFails p name) as [e|] eqn:Hfail; simpl.
  - split; [intros H; split; [done|intros [_ ?]; done] | intros [H _]; done].
  - destruct (existsb (hasName name) (Items p)) eqn:Hheld; simpl.
    + rewrite !list_elem_of_In, filter_In, negb_true_iff.
      rewrite <- not_true_iff_false, hasName_true. tauto.
    + split; [|tauto]. intros Hin. split; [done|]. intros [Hname _].
      apply not_true_iff_false in Hheld. apply Hheld, existsb_exists.
      exists cert. rewrite <- list_elem_of_In, hasName_true. done.
Qed.

Variable orphan : string -> bool.

Lemma sweep_fails certs p :
  DeleteFails (foldl (sweepStep orphan) p certs) = DeleteFails p /\
  ListFails (foldl (sweepStep orphan) p certs) = ListFails p.
Proof.
  induction certs as [|cert certs IH] using rev_ind; [done|].
  rewrite foldl_snoc. unfold sweepStep at 1 3. destruct (orphan _); [|done].
  destruct (providerDelete_fails (SslName cert) (foldl (sweepStep orphan) p certs)) as [-> ->].
  done.
Qed.

(** The deletions attempted by the loop: one for every listed
    certificate that is an orphan, in listing order, whatever the
    earlier deletions returned. *)
Lemma sweep_calls certs p :
  DeleteCalls (foldl (sweepStep orphan) p certs) =
  DeleteCalls p ++ List.filter orphan (SslName <$> certs).
Proof.
  induction certs as [|cert certs IH] using rev_ind.
  - simpl. by rewrite app_nil_r.
  - rewrite foldl_snoc, fmap_app, List.filter_app. simpl.
    unfold sweepStep at 1. destruct (orphan (SslName cert)).
    + rewrite providerDelete_calls, IH. by rewrite <- app_assoc.
    + rewrite IH. by rewrite app_nil_r.
Qed.

Lemma sweep_items certs p cert :
  cert ∈ Items (foldl (sweepStep orphan) p certs) <->
  cert ∈ Items p /\
  ~ (SslName cert ∈ SslName <$> certs /\ orphan (SslName cert) = true /\
     DeleteFails p (SslName cert) = None).
Proof.
  induction certs as [|c certs IH] using rev_ind.
  - simpl. split; [|tauto]. intros H. split; [done|]. intros [Hin _]. set_solver.
  - rewrite foldl_snoc, fmap_app. simpl. unfold sweepStep at 1.
    destruct (orphan (SslName c)) eqn:Horphan.
    + rewrite providerDelete_items, IH.
      destruct (sweep_fails certs p) as [-> _].
      rewrite elem_of_app, list_elem_of_singleton.
      split.
      * intros [[Hin Hnot] Hlast]. split; [done|].
        intros ([Hlisted|Hname] & Ho & Hf); [tauto|].
        apply Hlast. split; [done|]. by rewrite <- Hname.
      * intros [Hin Hnot]. split; [split; [done|tauto]|].
        intros [Hname Hf]. apply Hnot. rewrite Hname. tauto.
    + rewrite IH, elem_of_app, list_elem_of_singleton.
      split; intros [Hin Hnot]; (split; [done|]).
      * intros ([Hlisted|Hname] & Ho & Hf); [tauto|]. congruence.
      * tauto.
Qed.

End ProviderProperties.

(** ** The steps of the controller *)

Section McertProperties.

Import Mcert.

Lemma MetaNamespaceKeyFunc_mcert mcert :
  MetaNamespaceKeyFunc (ObjMcert mcert) = (queueKey mcert, None).
Proof.
  unfold queueKey. simpl. destruct (0 <? String.length (Namespace mcert))%nat; reflexivity.
Qed.

Lemma initializeState_ok c mcerts :
  lister c = (mcerts, None) ->
  fst (initializeState c) = None /\
  state (snd (initializeState c)) = assignAll Name CertificateName (state c) mcerts /\
  queue (snd (initializeState c)) = queue c /\
  sslClient (snd (initializeState c)) = sslClient c.
Proof.
  intros Hl. unfold initializeState, bind, List_. rewrite Hl.
  rewrite forRange_foldl. simpl. repeat split.
  - unfold assignAll. apply (foldl_proj state). intros w x. reflexivity.
  - apply (foldl_kept queue). intros w x. reflexivity.
  - apply (foldl_kept sslClient). intros w x. reflexivity.
Qed.

Lemma initializeState_error c mcerts e :
  lister c = (mcerts, Some e) -> initializeState c = (Some e, c).
Proof. intros Hl. unfold initializeState, bind, List_. rewrite Hl. reflexivity. Qed.

Lemma getAllMcertsInCluster_ok c mcerts :
  lister c = (mcerts, None) ->
  getAllMcertsInCluster c = ((assignAll Name id ∅ mcerts, None), c).
Proof. intros Hl. unfold getAllMcertsInCluster, bind, List_. rewrite Hl. reflexivity. Qed.

Lemma prune_lookup all keys st k :
  prune all st keys !! k =
  if decide (k ∈ keys /\ all !! k = None) then None else st !! k.
Proof.
  unfold prune. induction keys as [|k' keys IH] using rev_ind.
  - rewrite decide_False; [done|]. intros [H _]. set_solver.
  - rewrite foldl_snoc.
    destruct (decide (k ∈ keys ++ [k'] /\ all !! k = None)) as [[Hin Hnone]|Hnot].
    + destruct (all !! k') eqn:Hall.
      * rewrite IH, decide_True; [done|]. split; [|done].
        apply elem_of_app in Hin as [|Hin]; [done|].
        apply list_elem_of_singleton in Hin. congruence.
      * change (Delete k' ?m) with (delete k' m).
        destruct (decide (k' = k)) as [->|Hne]; [apply lookup_delete_eq|].
        rewrite lookup_delete_ne by done. rewrite IH, decide_True; [done|].
        split; [|done]. set_solver.
    + destruct (all !! k') eqn:Hall.
      * rewrite IH, decide_False; [done|]. intros [? ?]. apply Hnot. set_solver.
      * change (Delete k' ?m) with (delete k' m). rewrite lookup_delete_ne.
        -- rewrite IH, decide_False; [done|]. intros [? ?]. apply Hnot. set_solver.
        -- intros ->. apply Hnot. set_solver.
Qed.

Lemma deleteObsoleteMcertsFromState_spec all c :
  let c' := snd (deleteObsoleteMcertsFromState all c) in
  (forall k, state c' !! k = match all !! k with Some _ => state c !! k | None => None end) /\
  sslClient c' = sslClient c /\ queue c' = queue c /\
  handled c' = handled c /\ lister c' = lister c.
Proof.
  unfold deleteObsoleteMcertsFromState, bind, getState. rewrite forRange_foldl. simpl.
  set (step := fun (w : McertController) (x : string) => _).
  assert (Hkept : forall (P : Type) (proj : McertController -> P),
    (forall w f, proj (snd (withState f w)) = proj w) ->
    (forall w l, proj (snd (Infof l w)) = proj w) ->
    forall w x, proj (step w x) = proj w).
  { intros P proj Hs Hi w x. unfold step, bind. destruct (all !! x); [reflexivity|].
    etransitivity; [|apply (Hs w (Delete x))].
    exact (Hi (snd (withState (Delete x) w)) _). }
  repeat split.
  - intros k.
    rewrite (foldl_proj state step
               (fun st k => match all !! k with None => Delete k st | Some _ => st end)).
    + fold (prune all (state c) (GetAllManagedCertificates (state c))).
      rewrite prune_lookup.
      destruct (decide (k ∈ GetAllManagedCertificates (state c) /\ all !! k = None))
        as [[Hin Hnone]|Hnot].
      * by rewrite Hnone.
      * destruct (all !! k) eqn:Hall; [done|].
        destruct (state c !! k) as [v|] eqn:Hst; [|done].
        exfalso. apply Hnot. split; [|done].
        apply list_elem_of_fmap. exists (k, v). split; [done|].
        by apply elem_of_map_to_list.
    + intros w x. unfold step, bind. destruct (all !! x); reflexivity.
  - apply (foldl_kept sslClient), Hkept; reflexivity.
  - apply (foldl_kept queue), Hkept; reflexivity.
  - apply (foldl_kept handled), Hkept; reflexivity.
  - apply (foldl_kept lister), Hkept; reflexivity.
Qed.

Lemma knownSet_lookup (names : list string) name :
  assignAll id (fun _ => true) ∅ names !! name =
  if bool_decide (name ∈ names) then Some true else None.
Proof.
  destruct (bool_decide_reflect (name ∈ names)) as [Hin|Hout].
  - destruct (assignAll_lookup_listed id (fun _ => true) ∅ names name Hin)
      as (x' & _ & _ & Hl). exact Hl.
  - rewrite assignAll_lookup_other; [apply lookup_empty|]. by rewrite list_fmap_id.
Qed.

(** The test [!exists || !known] of [deleteObsoleteSslCertificates]. *)
Lemma orphan_test st name :
  (let (known, exists_) :=
     match assignAll id (fun _ => true) ∅ (GetAllSslCertificates st) !! name with
     | Some known => (known, true)
     | None => (false, false)
     end in negb exists_ || negb known) = isOrphan st name.
Proof.
  rewrite knownSet_lookup. unfold isOrphan.
  destruct (bool_decide (name ∈ GetAllSslCertificates st)); reflexivity.
Qed.

Lemma deleteObsoleteSslCertificates_ok c :
  ListFails (sslClient c) = None ->
  let out := deleteObsoleteSslCertificates c in
  let orphan := isOrphan (state c) in
  fst out = None /\
  sslClient (snd out) = foldl (sweepStep orphan) (sslClient c) (Items (sslClient c)) /\
  state (snd out) = state c /\ queue (snd out) = queue c /\
  handled (snd out) = handled c /\ lister (snd out) = lister c /\
  infolog (snd out) =
    infolog c ++ (deletedLine <$> List.filter orphan (SslName <$> Items (sslClient c))).
Proof.
  intros Hlist. destruct c as [l st p q h lg]. simpl in *.
  unfold deleteObsoleteSslCertificates, bind, getState, callProvider, providerList.
  simpl. rewrite Hlist. rewrite forRange_foldl. simpl.
  set (step := fun (w : McertController) (x : SslCertificate) => _).
  assert (Hstep : forall w cert, step w cert =
    if isOrphan st (SslName cert)
    then {| lister := lister w; state := state w;
            sslClient := snd (providerDelete (SslName cert) (sslClient w));
            queue := queue w; handled := handled w;
            infolog := infolog w ++ [deletedLine (SslName cert)] |}
    else w).
  { intros w cert. unfold step.
    change (foldl (fun set knownSslCert => <[knownSslCert:=true]> set) ∅
              (GetAllSslCertificates st))
      with (assignAll id (fun _ : string => true) ∅ (GetAllSslCertificates st)).
    pose proof (orphan_test st (SslName cert)) as Ht.
    destruct (assignAll id (fun _ => true) ∅ (GetAllSslCertificates st) !! SslName cert)
      as [known|]; rewrite <- Ht; simpl.
    - destruct known; simpl; [reflexivity|].
      unfold bind, callProvider, Infof, modify.
      destruct (providerDelete (SslName cert) (sslClient w)); reflexivity.
    - unfold bind, callProvider, Infof, modify.
      destruct (providerDelete (SslName cert) (sslClient w)); reflexivity. }
  clearbody step.
  assert (Hloop : forall certs w,
    sslClient (foldl step w certs) = foldl (sweepStep (isOrphan st)) (sslClient w) certs /\
    state (foldl step w certs) = state w /\ queue (foldl step w certs) = queue w /\
    handled (foldl step w certs) = handled w /\ lister (foldl step w certs) = lister w /\
    infolog (foldl step w certs) =
      infolog w ++ (deletedLine <$> List.filter (isOrphan st) (SslName <$> certs))).
  { intros certs w.
    induction certs as [|cert certs IH] using rev_ind; [simpl; by rewrite app_nil_r|].
    rewrite !foldl_snoc, Hstep, fmap_app, List.filter_app, fmap_app. simpl.
    destruct IH as (IH1 & IH2 & IH3 & IH4 & IH5 & IH6).
    unfold sweepStep at 1.
    destruct (isOrphan st (SslName cert)); simpl.
    - rewrite IH1, IH2, IH3, IH4, IH5, IH6. rewrite <- app_assoc. done.
    - rewrite IH1, IH2, IH3, IH4, IH5, IH6. rewrite app_nil_r. done. }
  split; [reflexivity|]. apply Hloop.
Qed.

Lemma deleteObsoleteSslCertificates_error c e :
  ListFails (sslClient c) = Some e ->
  fst (deleteObsoleteSslCertificates c) = Some e /\
  queue (snd (deleteObsoleteSslCertificates c)) = queue c.
Proof.
  intros Hlist.
  unfold deleteObsoleteSslCertificates, bind, getState, callProvider, providerList.
  simpl. rewrite Hlist. done.
Qed.

Lemma enqueue_all mcerts c :
  let c' := snd (forRange mcerts (fun mcert => enqueue (ObjMcert mcert)) c) in
  queue c' = queue c ++ (queueKey <$> mcerts) /\
  state c' = state c /\ sslClient c' = sslClient c /\ handled c' = handled c.
Proof.
  rewrite forRange_foldl. simpl.
  induction mcerts as [|m mcerts IH] using rev_ind; [simpl; by rewrite app_nil_r|].
  rewrite !foldl_snoc, fmap_app. destruct IH as (IH1 & IH2 & IH3 & IH4).
  unfold enqueue at 1 3 5 7. rewrite MetaNamespaceKeyFunc_mcert. simpl.
  rewrite IH1, IH2, IH3, IH4, <- app_assoc. done.
Qed.

End McertProperties.

(** ** One resynchronisation pass *)

Section Resync.

Import Mcert.

Lemma synchronizeAllMcerts_ok c mcerts :
  lister c = (mcerts, None) ->
  ListFails (sslClient c) = None ->
  let all := assignAll Name id ∅ mcerts in
  let c' := snd (synchronizeAllMcerts c) in
  (forall k, state c' !! k = match all !! k with Some _ => state c !! k | None => None end) /\
  sslClient c' =
    foldl (sweepStep (isOrphan (state c'))) (sslClient c) (Items (sslClient c)) /\
  queue c' = queue c ++ (queueKey <$> (map_to_list all).*2) /\
  handled c' = handled c.
Proof.
  intros Hl Hp all. unfold synchronizeAllMcerts, bind.
  rewrite (getAllMcertsInCluster_ok c mcerts Hl). fold all.
  pose proof (deleteObsoleteMcertsFromState_spec all c) as H1.
  destruct (deleteObsoleteMcertsFromState all c) as [[] c1]. simpl in H1.
  destruct H1 as (Hst & Hssl & Hq & Hh & _).
  assert (Hp1 : ListFails (sslClient c1) = None) by (by rewrite Hssl).
  pose proof (deleteObsoleteSslCertificates_ok c1 Hp1) as H2.
  destruct (deleteObsoleteSslCertificates c1) as [err c2]. simpl in H2.
  destruct H2 as (-> & Hssl2 & Hst2 & Hq2 & Hh2 & _).
  pose proof (enqueue_all (map_to_list all).*2 c2) as H3. simpl in *.
  destruct H3 as (Hq3 & Hst3 & Hssl3 & Hh3).
  rewrite Hst3, Hssl3, Hq3, Hh3, Hst2, Hssl2, Hq2, Hh2, Hssl, Hq, Hh.
  repeat split; try done.
Qed.

Lemma synchronizeAllMcerts_provider_down c mcerts e :
  lister c = (mcerts, None) ->
  ListFails (sslClient c) = Some e ->
  queue (snd (synchronizeAllMcerts c)) = queue c.
Proof.
  intros Hl Hp. unfold synchronizeAllMcerts, bind.
  rewrite (getAllMcertsInCluster_ok c mcerts Hl).
  pose proof (deleteObsoleteMcertsFromState_spec (assignAll Name id ∅ mcerts) c) as H1.
  destruct (deleteObsoleteMcertsFromState _ c) as [[] c1]. simpl in H1.
  destruct H1 as (_ & Hssl & Hq & _).
  assert (Hp1 : ListFails (sslClient c1) = Some e) by (by rewrite Hssl).
  pose proof (deleteObsoleteSslCertificates_error c1 e Hp1) as [H2 H3].
  destruct (deleteObsoleteSslCertificates c1) as [err c2]. simpl in *. subst err.
  simpl. by rewrite H3.
Qed.

(** C3, amended.  After a pass with both listings succeeding: no entry
    is left under a key absent from the listing; for every certificate of
    the provider that no remaining entry refers to, a deletion was
    requested, and the certificate is gone if the provider did not refuse
    that deletion; every certificate a remaining entry refers to is still
    there. *)
Theorem resync_pass c mcerts :
  lister c = (mcerts, None) ->
  ListFails (sslClient c) = None ->
  let c' := snd (synchronizeAllMcerts c) in
  (forall k, k ∉ Name <$> mcerts -> state c' !! k = None) /\
  (forall cert, cert ∈ Items (sslClient c) ->
     SslName cert ∉ GetAllSslCertificates (state c') ->
     SslName cert ∈ newDeleteCalls c c' /\
     (DeleteFails (sslClient c) (SslName cert) = None ->
      SslName cert ∉ SslName <$> Items (sslClient c'))) /\
  (forall cert, cert ∈ Items (sslClient c) ->
     SslName cert ∈ GetAllSslCertificates (state c') ->
     cert ∈ Items (sslClient c')).
Proof.
  intros Hl Hp c'.
  destruct (synchronizeAllMcerts_ok c mcerts Hl Hp) as (Hst & Hssl & _ & _).
  fold c' in Hst, Hssl. split; [|split].
  - intros k Hk. rewrite Hst, assignAll_lookup_other by done. by rewrite lookup_empty.
  - intros cert Hheld Hfree.
    assert (Ho : isOrphan (state c') (SslName cert) = true).
    { unfold isOrphan. by rewrite bool_decide_eq_false_2. }
    split.
    + unfold newDeleteCalls. rewrite Hssl, sweep_calls, drop_app_length.
      apply list_elem_of_In, filter_In. split; [|done].
      apply list_elem_of_In. by apply list_elem_of_fmap_2.
    + intros Hfail Hin. apply list_elem_of_fmap in Hin as (cert' & Hname & Hin).
      rewrite Hssl in Hin. apply sweep_items in Hin as [Hin Hnot]. apply Hnot.
      rewrite <- Hname. split; [by apply list_elem_of_fmap_2|done].
  - intros cert Hheld Href. rewrite Hssl. apply sweep_items. split; [done|].
    intros (_ & Ho & _). unfold isOrphan in Ho.
    by rewrite bool_decide_eq_true_2 in Ho.
Qed.

(** C5, amended.  In a pass in which the provider listing succeeds as
    well and no two listed resources have the same name, the keys handed
    to the queue are the keys of the listed resources, one for each
    resource, in some order. *)
Theorem resync_enqueues c mcerts :
  lister c = (mcerts, None) ->
  ListFails (sslClient c) = None ->
  NoDup (Name <$> mcerts) ->
  newQueueKeys c (snd (synchronizeAllMcerts c)) ≡ₚ queueKey <$> mcerts.
Proof.
  intros Hl Hp Hnd.
  destruct (synchronizeAllMcerts_ok c mcerts Hl Hp) as (_ & _ & Hq & _).
  unfold newQueueKeys. rewrite Hq, drop_app_length.
  apply fmap_Permutation.
  rewrite (assignAll_NoDup_to_list Name id mcerts Hnd).
  rewrite <- list_fmap_compose. by rewrite list_fmap_id.
Qed.

End Resync.

(** C3 fails as stated.  The provider refuses to delete [cert-orphan]:
    after the pass the certificate is still there, although no entry refers
    to it. *)
Lemma resync_leaves_refused_orphan : ~ resync_leaves_no_orphan Fake.stuck.
Proof.
  intros H. destruct (H _ eq_refl eq_refl) as (_ & Horphan & _). clear H.
  apply (Horphan (Fake.cert "cert-orphan")); clear Horphan; by_evaluation.
Qed.

(** C3 on the scenario of the specification: after the pass a deletion
    of [cert-orphan] was requested, [cert-orphan] is gone and [cert-a] is
    still held. *)
Lemma resync_pass_witness :
  let c' := snd (Mcert.synchronizeAllMcerts Fake.scenario) in
  "cert-orphan" ∈ newDeleteCalls Fake.scenario c' /\
  ("cert-orphan" ∉ SslName <$> Mcert.Items (Mcert.sslClient c')) /\
  Fake.cert "cert-a" ∈ Mcert.Items (Mcert.sslClient c').
Proof.
  intros c'.
  destruct (resync_pass Fake.scenario [Fake.mcrt "ns" "a" "cert-a"] eq_refl eq_refl)
    as (_ & Horphan & Hkept).
  destruct (Horphan (Fake.cert "cert-orphan")) as [Hcall Hgone]; [by_evaluation ..|].
  split; [exact Hcall|]. split; [exact (Hgone eq_refl)|].
  apply Hkept; [|by_evaluation].
  apply list_elem_of_here.
Defined.

(** C5 fails as stated.  Nothing is handed to the queue when the
    provider cannot be listed, and of two resources with the same name only
    one is. *)
Lemma resync_skips_keys :
  ~ resync_enqueues_every_key_once Fake.listDown /\
  ~ resync_enqueues_every_key_once Fake.sameName.
Proof.
  split; intros H.
  - specialize (H _ eq_refl (Fake.mcrt "ns" "a" "cert-a") (list_elem_of_here _ _)).
    vm_compute in H. discriminate H.
  - specialize (H _ eq_refl (Fake.mcrt "ns1" "a" "cert-1") (list_elem_of_here _ _)).
    vm_compute in H. discriminate H.
Qed.

(** C5 on the scenario of the specification: the queue gets [ns/a]. *)
Lemma resync_enqueues_witness :
  newQueueKeys Fake.scenario (snd (Mcert.synchronizeAllMcerts Fake.scenario)) ≡ₚ ["ns/a"].
Proof.
  exact (resync_enqueues Fake.scenario [Fake.mcrt "ns" "a" "cert-a"] eq_refl eq_refl
           (NoDup_singleton "a")).
Defined.

(** ** Keys of the state store and keys of the queue *)

Lemma length_append (s1 s2 : string) :
  String.length (s1 +:+ s2) = String.length s1 + String.length s2.
Proof. induction s1 as [|a s1 IH]; simpl; [reflexivity|]. by rewrite IH. Qed.

Lemma queueKey_cases mcert :
  queueKey mcert =
  if decide (Namespace mcert = "") then Name mcert
  else Namespace mcert +:+ "/" +:+ Name mcert.
Proof.
  unfold queueKey. simpl. destruct (Namespace mcert) as [|a ns]; reflexivity.
Qed.

Lemma queueKey_is_name mcert : queueKey mcert = Name mcert <-> Namespace mcert = "".
Proof.
  rewrite queueKey_cases. destruct (decide (Namespace mcert = "")) as [Hns|Hns].
  - tauto.
  - split; [|tauto]. intros Heq. apply (f_equal String.length) in Heq.
    rewrite !length_append in Heq. simpl in Heq. lia.
Qed.

(** C4, amended.  [initializeState] stores the entries under the names of
    the listed resources, without the namespace; [enqueue] hands to the
    queue the key [namespace/name], or the name alone when the namespace is
    empty; the two keys are the same only when the namespace is empty. *)
Theorem state_key_and_queue_key c mcerts mcert :
  Mcert.lister c = (mcerts, None) ->
  mcert ∈ mcerts ->
  let c' := snd (Mcert.initializeState c) in
  dom (Mcert.state c') = dom (Mcert.state c) ∪ list_to_set (Name <$> mcerts) /\
  (exists listed, listed ∈ mcerts /\ Name listed = Name mcert /\
     Mcert.state c' !! Name mcert = Some (CertificateName listed)) /\
  Mcert.queue (snd (Mcert.enqueue (Mcert.ObjMcert mcert) c)) = Mcert.queue c ++ [queueKey mcert] /\
  queueKey mcert = (if decide (Namespace mcert = "") then Name mcert
                    else Namespace mcert +:+ "/" +:+ Name mcert) /\
  (queueKey mcert = Name mcert <-> Namespace mcert = "").
Proof.
  intros Hl Hin c'.
  destruct (initializeState_ok c mcerts Hl) as (_ & Hst & _).
  fold c' in Hst. rewrite Hst. repeat split.
  - apply assignAll_dom.
  - apply assignAll_lookup_listed, Hin.
  - unfold Mcert.enqueue. rewrite MetaNamespaceKeyFunc_mcert. reflexivity.
  - apply queueKey_cases.
  - apply queueKey_is_name.
  - apply queueKey_is_name.
Qed.

(** C4 fails as stated.  Resource [ns/foo]: the entry is stored under
    [foo], the queue gets [ns/foo]. *)
Lemma state_key_differs_from_queue_key :
  ~ state_key_is_queue_key (Fake.mcrt "ns" "foo" "cert-foo").
Proof.
  intros H.
  specialize (H (Fake.controller [Fake.mcrt "ns" "foo" "cert-foo"] []
                   (Fake.provider [] (fun _ => None))) eq_refl eq_refl).
  vm_compute in H. discriminate H.
Qed.

(** C4 on resource [ns/a] of the scenario of the specification. *)
Lemma state_key_and_queue_key_witness :
  let mcert := Fake.mcrt "ns" "a" "cert-a" in
  let c' := snd (Mcert.initializeState Fake.scenario) in
  dom (Mcert.state c') = dom (Mcert.state Fake.scenario) ∪ list_to_set (Name <$> [mcert]) /\
  (exists listed, listed ∈ [mcert] /\ Name listed = "a" /\
     Mcert.state c' !! "a" = Some (CertificateName listed)) /\
  Mcert.queue (snd (Mcert.enqueue (Mcert.ObjMcert mcert) Fake.scenario)) = [queueKey mcert] /\
  queueKey mcert = "ns/a" /\
  (queueKey mcert = "a" <-> "ns" = "").
Proof.
  exact (state_key_and_queue_key Fake.scenario [Fake.mcrt "ns" "a" "cert-a"]
           (Fake.mcrt "ns" "a" "cert-a") eq_refl (list_elem_of_here _ _)).
Defined.

(** ** Deletion errors during the orphan sweep *)

(** C7.  The provider refuses to delete [cert-orphan], the first orphan
    of its listing.  The sweep goes on and requests the deletion of the
    second orphan [cert-gone], which goes through; the refusal itself is
    dropped: the sweep returns [nil], nothing reaches [HandleError], and
    the log says that [cert-orphan] was deleted, exactly as in the run in
    which the provider deletes it. *)
Theorem sweep_drops_deletion_error :
  let out := Mcert.deleteObsoleteSslCertificates Fake.pruned in
  let willing := Mcert.deleteObsoleteSslCertificates Fake.prunedWilling in
  Mcert.DeleteFails (Mcert.sslClient Fake.pruned) "cert-orphan" = Some Fake.unavailable /\
  newDeleteCalls Fake.pruned (snd out) = ["cert-orphan"; "cert-gone"] /\
  SslName <$> Mcert.Items (Mcert.sslClient (snd out)) = ["cert-orphan"; "cert-a"] /\
  fst out = None /\
  Mcert.handled (snd out) = [] /\
  Mcert.infolog (snd out) = [deletedLine "cert-orphan"; deletedLine "cert-gone"] /\
  Mcert.infolog (snd out) = Mcert.infolog (snd willing).
Proof. repeat split; vm_compute; reflexivity. Qed.

(** * Properties of the supervisor *)

Section SupervisorProperties.

Import Supervisor.

Lemma inv_start c : inv (start c).
Proof.
  split; simpl; try done.
  intros _. split; apply not_elem_of_nil.
Qed.

Local Ltac pcs :=
  repeat match goal with
  | H : mainPc _ = _ |- _ => rewrite H in *; clear H
  | H : mcertPc _ = _ |- _ => rewrite H in *; clear H
  end; simpl in *.

Lemma not_started_snoc (l l' : Loop) (ls : list Loop) :
  l ∉ ls -> l <> l' -> l ∉ ls ++ [l'].
Proof.
  intros Hl Hne Hin. apply elem_of_app in Hin as [Hin|Hin]; [done|].
  by apply list_elem_of_singleton in Hin.
Qed.

Lemma started_snoc (l l' : Loop) (ls : list Loop) : l ∈ ls -> l ∈ ls ++ [l'].
Proof. intros Hl. apply elem_of_app. by left. Qed.

Lemma inv_step s s' : inv s -> step s s' -> inv s'.
Proof.
  intros [Hloops Hfailed Hsending Hspawn Hingress Hworker Hquit Hran] Hstep.
  assert (Hnone : failed (mcertPc s) = false -> initError s = None).
  { intros Hf. destruct (initError s) eqn:He; [|done].
    rewrite Hfailed in Hf by (rewrite ?He; eauto). done. }
  destruct Hstep; pcs; split; simpl; pcs; try done; try tauto;
    try (intros l0 Hl0; apply started_snoc; by apply Hran).
  all: first
    [ (* the goroutine of McertController.Run exists already *)
      intros Hb; specialize (Hspawn Hb); discriminate
    | (* Controller.Run is past quit while state is still initialised *)
      intros Hb; destruct (Hquit Hb); discriminate
    | (* spawning McertController.Run *)
      intros _; apply Hloops; left; rewrite Hspawn; done
    | intros Hs; rewrite Hnone in Hs by (rewrite ?Hspawn; done);
      by apply is_Some_None in Hs
    | (* a go statement of Controller.Run *)
      intros Hp; destruct (Hloops Hp); split; apply not_started_snoc; done
    | intros Hb; apply started_snoc; by auto
    | intros _; apply elem_of_app; right; apply list_elem_of_here
    | (* a go statement of McertController.Run: no error is recorded *)
      intros [?|Hs]; [done|]; rewrite Hnone in Hs by done;
      by apply is_Some_None in Hs
    | (* a round of a running loop *)
      intros l0 Hin; apply elem_of_app in Hin as [Hin|Hin]; [by apply Hran|];
      apply list_elem_of_singleton in Hin; subst;
      match goal with H : running _ _ |- _ => by destruct H end
    | idtac ].
  (* the send on mcertStopChannel received by a loop: the loop was
     started, so initializeState had succeeded *)
  intros _.
  assert (Hl : l ∈ started s)
    by (match goal with H : running _ _ |- _ => by destruct H end).
  assert (Hgo : ~ (beforeLoops (mcertPc s) = true \/ is_Some (initError s))).
  { intros Hp. destruct (Hloops Hp).
    match goal with H : _ = WorkerLoop \/ _ |- _ => destruct H; subst; done end. }
  destruct (initError s) eqn:He; [exfalso; apply Hgo; right; eauto|].
  split; [done|].
  destruct (mcertPc s); simpl in *; try done; try (exfalso; apply Hgo; by left).
  by apply is_Some_None in Hsending.
Qed.


End SupervisorProperties.


Lemma failedRun_reachable : Supervisor.reachable Fake.cacheDown failedRun.
Proof.
  unfold Supervisor.reachable.
  eapply rtc_l; [apply Supervisor.step_cache_synced; reflexivity|].
  eapply rtc_l; [apply Supervisor.step_go_mcert; reflexivity|].
  eapply rtc_l; [eapply Supervisor.step_init_fail; reflexivity|].
  eapply rtc_l; [apply Supervisor.step_go_ingress; reflexivity|].
  eapply rtc_l;
    [apply (Supervisor.step_loop _ Supervisor.IngressLoop Fake.cacheDown); [|exact I]|].
  { split; [apply list_elem_of_here|apply not_elem_of_nil]. }
  eapply rtc_l; [apply Supervisor.step_go_ingress_worker; reflexivity|].
  apply rtc_refl.
Qed.


(** * Properties of the custom resource definition *)

Section CrdProperties.

Import Crd.

Example domain_accepted : domainOk "a.example.com" = true.
Proof. vm_compute. reflexivity. Qed.

Example domain_without_dot_rejected : domainOk "example" = false.
Proof. vm_compute. reflexivity. Qed.

Example domain_numeric_tld_rejected : domainOk "a.0b" = false.
Proof. vm_compute. reflexivity. Qed.

Example domain_too_long_rejected :
  domainOk "aaaaaaaaaaaaaaaaaaaaaaaaaaaaaaaaaaaaaaaaaaaaaaaaaaaaaaaaaaa.com" = true /\
  domainOk "aaaaaaaaaaaaaaaaaaaaaaaaaaaaaaaaaaaaaaaaaaaaaaaaaaaaaaaaaaaa.com" = false.
Proof. split; vm_compute; reflexivity. Qed.

(** [show] gives the text of the source back. *)
Lemma domainRegex_text : show domainRegex = domainRegexText.
Proof. vm_compute. reflexivity. Qed.

Lemma validate_domains maxItems domains :
  validate (object [("status", statusSchema); ("spec", specSchema maxItems)])
           (withDomains domains)
  = (Z.of_nat (length domains) <=? maxItems)%Z && forallb domainOk domains.
Proof.
  unfold withDomains, specSchema, object.
  cbn [validate hasType field String.eqb Ascii.eqb Bool.eqb forallb andb orb atMost].
  rewrite !andb_true_r, length_map. f_equal.
  induction domains as [|d domains IH]; [reflexivity|].
  cbn [List.map forallb]. rewrite IH. reflexivity.
Qed.

Lemma validate_domains_iff maxItems domains :
  validate (object [("status", statusSchema); ("spec", specSchema maxItems)])
           (withDomains domains) = true <->
  (Z.of_nat (length domains) <= maxItems)%Z /\
  forall d, d ∈ domains ->
    (RuneCountInString d <= maxDomainLength)%Z /\ MatchString domainRegex d = true.
Proof.
  rewrite validate_domains, andb_true_iff, Z.leb_le, forallb_forall.
  unfold domainOk. setoid_rewrite andb_true_iff. setoid_rewrite Z.leb_le.
  setoid_rewrite list_elem_of_In. reflexivity.
Qed.

(** C10, amended.  The definition has the two versions [v1beta1] and
    [v1beta2].  The schema of the first accepts a list of at most 1
    domain, that of the second a list of at most 100 domains; in both,
    every domain has at most 63 characters and matches [domainRegex]. *)
Theorem crd_domains_schema :
  VersionName <$> Versions = ["v1beta1"; "v1beta2"] /\
  exists first second,
    schemaOf "v1beta1" = Some first /\ schemaOf "v1beta2" = Some second /\
    (forall domains,
       validate first (withDomains domains) = true <->
       length domains <= 1 /\
       forall d, d ∈ domains ->
         (RuneCountInString d <= 63)%Z /\ MatchString domainRegex d = true) /\
    (forall domains,
       validate second (withDomains domains) = true <->
       length domains <= 100 /\
       forall d, d ∈ domains ->
         (RuneCountInString d <= 63)%Z /\ MatchString domainRegex d = true).
Proof.
  split; [reflexivity|].
  exists (object [("status", statusSchema); ("spec", specSchema maxDomains1)]),
         (object [("status", statusSchema); ("spec", specSchema maxDomains100)]).
  split; [reflexivity|]. split; [reflexivity|].
  split; intros domains; rewrite validate_domains_iff;
    unfold maxDomains1, maxDomains100, maxDomainLength;
    (split; intros [Hlen Hall]; (split; [lia|exact Hall])).
Qed.

(** C10 fails as stated: the first variant accepts the empty list of
    domains. *)
Lemma first_variant_takes_no_domain : ~ first_variant_takes_exactly_one.
Proof.
  intros H. specialize (H _ [] eq_refl).
  assert (Hlen : length (@nil string) = 1) by (apply H; vm_compute; reflexivity).
  discriminate Hlen.
Qed.

End CrdProperties.

(** * Further properties of the certificate lifecycle manager *)

Section ManagerFurther.

Import Manager.
Context {B : Type}.
Variable client : Ssl B.

Local Ltac run :=
  unfold Create, Delete, Exists, Get, ifNotNil, callSsl, emit, Infof, modify, bind, ret;
  simpl.

(** X1.  [Delete] returns an error exactly when the backend call returned
    an error that is not "not found", and then it returns that very error;
    in that case the one notification, if there is a resource context, is
    BackendError with that error, and no completion line is logged. *)
Theorem Delete_error_result name mcrt w e :
  (fst (Delete client name mcrt w) = Some e <->
   fst (SslDelete client name (backend w)) = Some e /\ IsNotFound e = false) /\
  (fst (Delete client name mcrt w) = Some e ->
   events (snd (Delete client name mcrt w)) =
     events w ++ match mcrt with Some m => [EvBackendError m e] | None => [] end /\
   infolog (snd (Delete client name mcrt w)) =
     infolog w ++ ["Deleting SslCertificate " +:+ name]).
Proof.
  run. destruct (SslDelete client name (backend w)) as [res b']. simpl.
  destruct res as [e'|]; simpl.
  - destruct (IsNotFound e') eqn:Hnf; destruct mcrt; simpl; split;
      try (split; [intros [= <-]; done | intros [[= ->] ?]; congruence]);
      try (split; [done | intros [[= ->] ?]; congruence]);
      try (intros [= <-]; by rewrite ?app_nil_r);
      done.
  - destruct mcrt; simpl; split; try (split; [done | intros [? ?]; done]); done.
Qed.

(** X2.  When the backend call fails, [Exists] and [Get] return the
    backend's error as it is, and with a resource context they emit exactly
    one BackendError notification carrying that error. *)
Theorem Exists_Get_error name m w :
  (forall e, snd (fst (SslExists client name (backend w))) = Some e ->
     fst (Exists client name (Some m) w) = (false, Some e) /\
     events (snd (Exists client name (Some m) w)) = events w ++ [EvBackendError m e]) /\
  (forall e, snd (fst (SslGet client name (backend w))) = Some e ->
     fst (Get client name (Some m) w) = (None, Some e) /\
     events (snd (Get client name (Some m) w)) = events w ++ [EvBackendError m e]).
Proof.
  run. split; intros e.
  - destruct (SslExists client name (backend w)) as [[found err] b']. simpl.
    intros ->. done.
  - destruct (SslGet client name (backend w)) as [[cert err] b']. simpl.
    intros ->. done.
Qed.

(** X3.  When the backend call succeeds, [Exists] and [Get] hand the
    backend's answer through unchanged, emit no notification and write no
    log line, with or without a resource context. *)
Theorem Exists_Get_success name mcrt w :
  (snd (fst (SslExists client name (backend w))) = None ->
     fst (Exists client name mcrt w) = (fst (fst (SslExists client name (backend w))), None) /\
     events (snd (Exists client name mcrt w)) = events w /\
     infolog (snd (Exists client name mcrt w)) = infolog w) /\
  (snd (fst (SslGet client name (backend w))) = None ->
     fst (Get client name mcrt w) = (fst (fst (SslGet client name (backend w))), None) /\
     events (snd (Get client name mcrt w)) = events w /\
     infolog (snd (Get client name mcrt w)) = infolog w).
Proof.
  run. split.
  - destruct (SslExists client name (backend w)) as [[found err] b']. simpl.
    intros ->. done.
  - destruct (SslGet client name (backend w)) as [[cert err] b']. simpl.
    intros ->. done.
Qed.

(** X4.  No operation of the manager drops or rewrites a notification
    emitted earlier, and each emits at most one. *)
Theorem notifications_append_only name mcrt optional w :
  let grows (w' : World B) :=
    exists emitted, events w' = events w ++ emitted /\ length emitted <= 1 in
  grows (snd (Create client name mcrt w)) /\
  grows (snd (Delete client name optional w)) /\
  grows (snd (Exists client name optional w)) /\
  grows (snd (Get client name optional w)).
Proof.
  run. repeat split.
  - destruct (SslCreate client name (Domains mcrt) (backend w)) as [[e|] b']; simpl;
      [destruct (IsQuotaExceeded e)|]; simpl; eexists [_]; split; done.
  - destruct (SslDelete client name (backend w)) as [res b'].
    destruct (IgnoreNotFound res), optional; simpl;
      first [ eexists [_]; split; done | exists []; rewrite app_nil_r; split; [done|simpl; lia] ].
  - destruct (SslExists client name (backend w)) as [[found [e|]] b'];
      [destruct optional|]; simpl;
      first [ eexists [_]; split; done | exists []; rewrite app_nil_r; split; [done|simpl; lia] ].
  - destruct (SslGet client name (backend w)) as [[cert [e|]] b'];
      [destruct optional|]; simpl;
      first [ eexists [_]; split; done | exists []; rewrite app_nil_r; split; [done|simpl; lia] ].
Qed.

(** X5.  [Create] and [Delete] log their completion line exactly when
    they return [nil]: the log grows by the announcement, followed by the
    completion line if and only if the operation succeeded. *)
Theorem completion_logged_on_success name mcrt optional w :
  infolog (snd (Create client name mcrt w)) =
    infolog w ++
    ["Creating SslCertificate " +:+ name +:+ " for ManagedCertificate " +:+
       Namespace mcrt +:+ ":" +:+ Name mcrt] ++
    match fst (Create client name mcrt w) with
    | None => ["Created SslCertificate " +:+ name +:+ " for ManagedCertificate " +:+
                 Namespace mcrt +:+ ":" +:+ Name mcrt]
    | Some _ => []
    end /\
  infolog (snd (Delete client name optional w)) =
    infolog w ++ ["Deleting SslCertificate " +:+ name] ++
    match fst (Delete client name optional w) with
    | None => ["Deleted SslCertificate " +:+ name]
    | Some _ => []
    end.
Proof.
  run. split.
  - destruct (SslCreate client name (Domains mcrt) (backend w)) as [[e|] b']; simpl;
      [destruct (IsQuotaExceeded e)|]; simpl; by rewrite <- ?app_assoc.
  - destruct (SslDelete client name (backend w)) as [res b'].
    destruct (IgnoreNotFound res), optional; simpl; by rewrite <- ?app_assoc.
Qed.

End ManagerFurther.

(** * Further properties of the managed-certificate controller *)

Section McertFurther.

Import Mcert.

(** The value under a key after a loop of assignments is the one assigned
    last; a key never assigned keeps its value. *)
Lemma assignAll_lookup_last {A V} (key : A -> string) (val : A -> V) m xs k :
  assignAll key val m xs !! k =
  match last (filter (fun x => key x = k) xs) with
  | Some x => Some (val x)
  | None => m !! k
  end.
Proof.
  unfold assignAll. induction xs as [|y xs IH] using rev_ind; [reflexivity|].
  rewrite foldl_snoc, filter_app.
  destruct (decide (key y = k)) as [Heq|Hne].
  - rewrite filter_cons_True, filter_nil by done. rewrite last_snoc.
    rewrite <- Heq. apply lookup_insert_eq.
  - rewrite filter_cons_False, filter_nil, app_nil_r by done.
    rewrite lookup_insert_ne by done. apply IH.
Qed.

Lemma assignAll_values {A V} (key : A -> string) (val : A -> V) xs k v :
  assignAll key val ∅ xs !! k = Some v ->
  exists x, x ∈ xs /\ key x = k /\ val x = v.
Proof.
  rewrite assignAll_lookup_last.
  destruct (last (filter (fun x => key x = k) xs)) as [x|] eqn:Hlast; [|done].
  intros [= <-]. exists x. apply last_Some_elem_of in Hlast.
  apply list_elem_of_filter in Hlast as [Hk Hx]. done.
Qed.

Lemma initializeState_lister c :
  lister (snd (initializeState c)) = lister c /\
  handled (snd (initializeState c)) = handled c /\
  infolog (snd (initializeState c)) = infolog c.
Proof.
  unfold initializeState, bind, List_. destruct (lister c) as [mcerts [e|]] eqn:Hl;
    simpl; [by rewrite Hl|].
  rewrite forRange_foldl. simpl. repeat split.
  - rewrite <- Hl. apply (foldl_kept lister). intros w x. reflexivity.
  - apply (foldl_kept handled). intros w x. reflexivity.
  - apply (foldl_kept infolog). intros w x. reflexivity.
Qed.

(** X6.  After a successful [initializeState] the entry under a name is
    the certificate name of the resource listed last with that name,
    whatever its namespace; the entry of a name that is not listed is kept
    as it was. *)
Theorem initializeState_last_listed_wins c mcerts k :
  lister c = (mcerts, None) ->
  state (snd (initializeState c)) !! k =
  match last (filter (fun mcert => Name mcert = k) mcerts) with
  | Some mcert => Some (CertificateName mcert)
  | None => state c !! k
  end.
Proof.
  intros Hl. destruct (initializeState_ok c mcerts Hl) as (_ & -> & _).
  apply assignAll_lookup_last.
Qed.

(** X7.  [initializeState] is idempotent: run a second time on the same
    listing it leaves the state store as the first run left it. *)
Theorem initializeState_idempotent c mcerts :
  lister c = (mcerts, None) ->
  state (snd (initializeState (snd (initializeState c)))) =
  state (snd (initializeState c)).
Proof.
  intros Hl.
  assert (Hl' : lister (snd (initializeState c)) = (mcerts, None)).
  { destruct (initializeState_lister c) as [-> _]. exact Hl. }
  destruct (initializeState_ok _ mcerts Hl') as (_ & -> & _).
  destruct (initializeState_ok c mcerts Hl) as (_ & -> & _).
  apply map_eq. intros k. rewrite !assignAll_lookup_last.
  destruct (last (filter (fun x => Name x = k) mcerts)); reflexivity.
Qed.

(** X8.  In the map [getAllMcertsInCluster] returns, every resource is a
    listed one stored under its own name, the keys are exactly the listed
    names, and the controller is left as it was; when the listing fails the
    error comes back with an empty map. *)
Theorem getAllMcertsInCluster_map c mcerts err :
  lister c = (mcerts, err) ->
  let all := fst (fst (getAllMcertsInCluster c)) in
  snd (fst (getAllMcertsInCluster c)) = err /\
  snd (getAllMcertsInCluster c) = c /\
  match err with
  | Some _ => all = ∅
  | None =>
      (forall k mcert, all !! k = Some mcert -> Name mcert = k /\ mcert ∈ mcerts) /\
      dom all = list_to_set (Name <$> mcerts) /\
      size all <= length mcerts
  end.
Proof.
  intros Hl. unfold getAllMcertsInCluster, bind, List_. rewrite Hl.
  destruct err as [e|]; simpl; [done|].
  assert (Hall : foldl (fun result mcert => <[Name mcert := mcert]> result) ∅ mcerts
                 = assignAll Name id ∅ mcerts) by reflexivity.
  rewrite Hall. clear Hall. split; [done|]. split; [done|]. split; [|split].
  - intros k mcert Hk.
    apply assignAll_values in Hk as (x & Hx & Hk & Hv). unfold id in Hv. by subst.
  - rewrite assignAll_dom. set_solver.
  - rewrite <- size_dom, assignAll_dom, dom_empty_L, union_empty_l_L.
    rewrite <- (length_fmap Name mcerts). generalize (Name <$> mcerts) as names.
    intros names. induction names as [|n names IH];
      [by rewrite list_to_set_nil, size_empty|].
    rewrite list_to_set_cons. cbn [length]. rewrite size_union_alt, size_singleton.
    assert (size (list_to_set names ∖ {[n]} : gset string) <= size (list_to_set names : gset string))
      by (apply subseteq_size; set_solver).
    lia.
Qed.

End McertFurther.

(** X6 on two resources named [a] in two namespaces: the entry under [a]
    is the certificate of the one listed last. *)
Lemma initializeState_last_listed_wins_witness :
  Mcert.state (snd (Mcert.initializeState Fake.sameName)) !! "a" = Some "cert-2".
Proof.
  exact (initializeState_last_listed_wins Fake.sameName
           [Fake.mcrt "ns1" "a" "cert-1"; Fake.mcrt "ns2" "a" "cert-2"] "a" eq_refl).
Defined.

(** X7 on the scenario of the specification. *)
Lemma initializeState_idempotent_witness :
  Mcert.state (snd (Mcert.initializeState (snd (Mcert.initializeState Fake.scenario)))) =
  Mcert.state (snd (Mcert.initializeState Fake.scenario)).
Proof.
  exact (initializeState_idempotent Fake.scenario [Fake.mcrt "ns" "a" "cert-a"] eq_refl).
Defined.

(** X8 on two resources named [a]: the map has the one key [a]. *)
Lemma getAllMcertsInCluster_map_witness :
  let all := fst (fst (Mcert.getAllMcertsInCluster Fake.sameName)) in
  snd (fst (Mcert.getAllMcertsInCluster Fake.sameName)) = None /\
  snd (Mcert.getAllMcertsInCluster Fake.sameName) = Fake.sameName /\
  (forall k mcert, all !! k = Some mcert ->
     Name mcert = k /\
     mcert ∈ [Fake.mcrt "ns1" "a" "cert-1"; Fake.mcrt "ns2" "a" "cert-2"]) /\
  dom all = list_to_set (Name <$> [Fake.mcrt "ns1" "a" "cert-1"; Fake.mcrt "ns2" "a" "cert-2"]) /\
  size all <= 2.
Proof.
  exact (getAllMcertsInCluster_map Fake.sameName
           [Fake.mcrt "ns1" "a" "cert-1"; Fake.mcrt "ns2" "a" "cert-2"] None eq_refl).
Defined.

Section ResyncFurther.

Import Mcert.

Lemma deleteObsoleteSslCertificates_down c e :
  ListFails (sslClient c) = Some e ->
  deleteObsoleteSslCertificates c = (Some e, c).
Proof.
  intros Hlist. destruct c as [l st p q h lg]. simpl in Hlist.
  unfold deleteObsoleteSslCertificates, bind, getState, callProvider, providerList.
  simpl. rewrite Hlist. reflexivity.
Qed.

Lemma enqueue_all_lister mcerts c :
  lister (snd (forRange mcerts (fun mcert => enqueue (ObjMcert mcert)) c)) = lister c.
Proof.
  rewrite forRange_foldl. simpl. apply (foldl_kept lister). intros w x.
  unfold enqueue. rewrite MetaNamespaceKeyFunc_mcert. reflexivity.
Qed.

Lemma pruned_state_filter all c :
  state (snd (deleteObsoleteMcertsFromState all c)) =
  filter (fun kv => is_Some (all !! kv.1)) (state c).
Proof.
  destruct (deleteObsoleteMcertsFromState_spec all c) as (Hst & _).
  apply map_eq. intros k. rewrite Hst. apply option_eq. intros v.
  rewrite map_lookup_filter_Some. simpl.
  destruct (all !! k) as [m|]; split.
  - intros H. split; [done|eauto].
  - intros [H _]. done.
  - done.
  - intros [_ [? ?]]. done.
Qed.

Lemma sweep_nothing orphan certs p :
  (forall cert, cert ∈ certs -> orphan (SslName cert) = false) ->
  foldl (sweepStep orphan) p certs = p.
Proof.
  induction certs as [|cert certs IH] using rev_ind; intros Hnone; [reflexivity|].
  rewrite foldl_snoc. unfold sweepStep at 1.
  rewrite Hnone by (apply elem_of_app; right; apply list_elem_of_here).
  apply IH. intros x Hx. apply Hnone, elem_of_app. by left.
Qed.

(** The three ways a pass can go. *)
Lemma synchronizeAllMcerts_lister_down c mcerts e :
  lister c = (mcerts, Some e) ->
  let c' := snd (synchronizeAllMcerts c) in
  state c' = state c /\ sslClient c' = sslClient c /\ queue c' = queue c /\
  handled c' = handled c ++ [e] /\ lister c' = lister c.
Proof.
  intros Hl. unfold synchronizeAllMcerts, getAllMcertsInCluster, bind, List_.
  rewrite Hl. simpl. by rewrite Hl.
Qed.

Lemma synchronizeAllMcerts_sweep_down c mcerts e :
  lister c = (mcerts, None) ->
  ListFails (sslClient c) = Some e ->
  let c' := snd (synchronizeAllMcerts c) in
  state c' = filter (fun kv => is_Some (assignAll Name id ∅ mcerts !! kv.1)) (state c) /\
  sslClient c' = sslClient c /\ queue c' = queue c /\
  handled c' = handled c ++ [e] /\ lister c' = lister c.
Proof.
  intros Hl Hp. unfold synchronizeAllMcerts, bind.
  rewrite (getAllMcertsInCluster_ok c mcerts Hl).
  pose proof (pruned_state_filter (assignAll Name id ∅ mcerts) c) as Hf.
  pose proof (deleteObsoleteMcertsFromState_spec (assignAll Name id ∅ mcerts) c) as H1.
  destruct (deleteObsoleteMcertsFromState _ c) as [[] c1]. simpl in H1, Hf.
  destruct H1 as (_ & Hssl & Hq & Hh & Hli).
  rewrite (deleteObsoleteSslCertificates_down c1 e) by (by rewrite Hssl).
  simpl. by rewrite Hf, Hssl, Hq, Hh, Hli.
Qed.

Lemma synchronizeAllMcerts_ok_lister c mcerts :
  lister c = (mcerts, None) ->
  ListFails (sslClient c) = None ->
  lister (snd (synchronizeAllMcerts c)) = lister c.
Proof.
  intros Hl Hp. unfold synchronizeAllMcerts, bind.
  rewrite (getAllMcertsInCluster_ok c mcerts Hl).
  pose proof (deleteObsoleteMcertsFromState_spec (assignAll Name id ∅ mcerts) c) as H1.
  destruct (deleteObsoleteMcertsFromState _ c) as [[] c1]. simpl in H1.
  destruct H1 as (_ & Hssl & _ & _ & Hli).
  assert (Hp1 : ListFails (sslClient c1) = None) by (by rewrite Hssl).
  pose proof (deleteObsoleteSslCertificates_ok c1 Hp1) as H2.
  destruct (deleteObsoleteSslCertificates c1) as [err c2]. simpl in H2.
  destruct H2 as (-> & _ & _ & _ & _ & Hli2 & _).
  rewrite enqueue_all_lister. by rewrite Hli2, Hli.
Qed.

(** X9.  [deleteObsoleteMcertsFromState] keeps exactly the entries whose
    key is in the given map, unchanged; it adds nothing, leaves the
    provider and the queue alone, and a second run removes nothing more. *)
Theorem deleteObsoleteMcertsFromState_filters all c :
  let c' := snd (deleteObsoleteMcertsFromState all c) in
  state c' = filter (fun kv => is_Some (all !! kv.1)) (state c) /\
  state c' ⊆ state c /\
  sslClient c' = sslClient c /\ queue c' = queue c /\
  state (snd (deleteObsoleteMcertsFromState all c')) = state c'.
Proof.
  intros c'. unfold c'. rewrite !pruned_state_filter.
  destruct (deleteObsoleteMcertsFromState_spec all c) as (_ & Hssl & Hq & _).
  split; [done|]. split; [apply map_filter_subseteq|]. split; [done|]. split; [done|].
  apply map_eq. intros k. apply option_eq. intros v.
  rewrite !map_lookup_filter_Some. tauto.
Qed.

(** X10.  When the provider listing succeeds, the sweep asks the provider
    to delete exactly the listed certificates that no entry of the state
    store refers to, once for each occurrence in the listing and in listing
    order, whatever the deletions return; it changes neither the state
    store nor the queue. *)
Theorem sweep_requests_the_orphans c :
  ListFails (sslClient c) = None ->
  let c' := snd (deleteObsoleteSslCertificates c) in
  newDeleteCalls c c' =
    List.filter (isOrphan (state c)) (SslName <$> Items (sslClient c)) /\
  (forall name, name ∈ newDeleteCalls c c' -> name ∉ GetAllSslCertificates (state c)) /\
  state c' = state c /\ queue c' = queue c.
Proof.
  intros Hp c'.
  destruct (deleteObsoleteSslCertificates_ok c Hp) as (_ & Hssl & Hst & Hq & _).
  fold c' in Hssl, Hst, Hq.
  assert (Hcalls : newDeleteCalls c c' =
                   List.filter (isOrphan (state c)) (SslName <$> Items (sslClient c))).
  { unfold newDeleteCalls. by rewrite Hssl, sweep_calls, drop_app_length. }
  split; [done|]. split; [|done].
  intros name Hin. rewrite Hcalls in Hin.
  apply list_elem_of_In, filter_In in Hin as [_ Ho]. unfold isOrphan in Ho.
  apply negb_true_iff, bool_decide_eq_false in Ho. done.
Qed.

(** X11.  A pass in which the provider listing fails still removes from
    the state store the entries of the resources that are gone; it asks for
    no deletion, hands nothing to the queue and gives the error to
    [HandleError]. *)
Theorem resync_with_provider_down c mcerts e :
  lister c = (mcerts, None) ->
  ListFails (sslClient c) = Some e ->
  let c' := snd (synchronizeAllMcerts c) in
  (forall k, state c' !! k = if decide (k ∈ Name <$> mcerts) then state c !! k else None) /\
  sslClient c' = sslClient c /\
  queue c' = queue c /\
  handled c' = handled c ++ [e].
Proof.
  intros Hl Hp c'.
  destruct (synchronizeAllMcerts_sweep_down c mcerts e Hl Hp) as (Hst & Hssl & Hq & Hh & _).
  fold c' in Hst, Hssl, Hq, Hh. split; [|done].
  intros k. rewrite Hst. apply option_eq. intros v.
  rewrite map_lookup_filter_Some. simpl.
  assert (Hdom : is_Some (assignAll Name id ∅ mcerts !! k) <-> k ∈ Name <$> mcerts).
  { rewrite <- elem_of_dom, assignAll_dom. set_solver. }
  destruct (decide (k ∈ Name <$> mcerts)) as [Hin|Hout]; [tauto|].
  split; [|done]. intros [_ Hs]. tauto.
Qed.

(** X12.  A pass never adds to what the controller owns: however it
    goes, every entry of the state store after it was there before with the
    same certificate name, every certificate of the provider after it was
    there before, and the queue and the handled errors only grow. *)
Theorem resync_never_adds c :
  let c' := snd (synchronizeAllMcerts c) in
  state c' ⊆ state c /\
  (forall cert, cert ∈ Items (sslClient c') -> cert ∈ Items (sslClient c)) /\
  queue c `prefix_of` queue c' /\
  handled c `prefix_of` handled c'.
Proof.
  intros c'. destruct (lister c) as [mcerts [e|]] eqn:Hl.
  - destruct (synchronizeAllMcerts_lister_down c mcerts e Hl) as (Hst & Hssl & Hq & Hh & _).
    fold c' in Hst, Hssl, Hq, Hh. rewrite Hst, Hssl, Hq, Hh.
    split; [done|]. split; [done|]. split; [done|]. by apply prefix_app_r.
  - destruct (ListFails (sslClient c)) as [e|] eqn:Hp.
    + destruct (synchronizeAllMcerts_sweep_down c mcerts e Hl Hp)
        as (Hst & Hssl & Hq & Hh & _).
      fold c' in Hst, Hssl, Hq, Hh. rewrite Hst, Hssl, Hq, Hh.
      split; [apply map_filter_subseteq|]. split; [done|]. split; [done|].
      by apply prefix_app_r.
    + destruct (synchronizeAllMcerts_ok c mcerts Hl Hp) as (Hst & Hssl & Hq & Hh).
      fold c' in Hst, Hssl, Hq, Hh. split; [|split; [|split]].
      * apply map_subseteq_spec. intros k v. rewrite Hst.
        destruct (assignAll Name id ∅ mcerts !! k); done.
      * intros cert. rewrite Hssl. intros Hin. by apply sweep_items in Hin as [Hin _].
      * rewrite Hq. by apply prefix_app_r.
      * by rewrite Hh.
Qed.

(** X13.  Passes converge: after a pass in which both listings succeed
    and the provider refuses no deletion, a second pass over the same
    listing asks for no deletion and changes neither the state store nor
    the provider. *)
Theorem resync_converges c mcerts :
  lister c = (mcerts, None) ->
  ListFails (sslClient c) = None ->
  (forall name, DeleteFails (sslClient c) name = None) ->
  let c1 := snd (synchronizeAllMcerts c) in
  let c2 := snd (synchronizeAllMcerts c1) in
  state c2 = state c1 /\ sslClient c2 = sslClient c1 /\ newDeleteCalls c1 c2 = [].
Proof.
  intros Hl Hp Hwilling c1 c2.
  destruct (synchronizeAllMcerts_ok c mcerts Hl Hp) as (Hst1 & Hssl1 & _ & _).
  fold c1 in Hst1, Hssl1.
  assert (Hl1 : lister c1 = (mcerts, None)).
  { unfold c1. by rewrite (synchronizeAllMcerts_ok_lister c mcerts Hl Hp). }
  assert (Hp1 : ListFails (sslClient c1) = None).
  { rewrite Hssl1. destruct (sweep_fails (isOrphan (state c1)) (Items (sslClient c))
                               (sslClient c)) as [_ ->]. done. }
  destruct (synchronizeAllMcerts_ok c1 mcerts Hl1 Hp1) as (Hst2 & Hssl2 & _ & _).
  fold c2 in Hst2, Hssl2.
  assert (Hst : state c2 = state c1).
  { apply map_eq. intros k. rewrite Hst2, Hst1.
    destruct (assignAll Name id ∅ mcerts !! k); done. }
  assert (Hssl : sslClient c2 = sslClient c1).
  { rewrite Hssl2, Hst. apply sweep_nothing. intros cert Hin.
    rewrite Hssl1 in Hin. apply sweep_items in Hin as [Hin Hnot].
    destruct (isOrphan (state c1) (SslName cert)) eqn:Ho; [|done].
    exfalso. apply Hnot. split; [by apply list_elem_of_fmap_2|]. split; [done|].
    apply Hwilling. }
  split; [done|]. split; [done|].
  unfold newDeleteCalls. rewrite Hssl. apply drop_all.
Qed.

End ResyncFurther.

(** X10 on a provider that refuses one of the deletions. *)
Lemma sweep_requests_the_orphans_witness :
  let c' := snd (Mcert.deleteObsoleteSslCertificates Fake.pruned) in
  newDeleteCalls Fake.pruned c' =
    List.filter (isOrphan (Mcert.state Fake.pruned))
      (SslName <$> Mcert.Items (Mcert.sslClient Fake.pruned)) /\
  (forall name, name ∈ newDeleteCalls Fake.pruned c' ->
     name ∉ Mcert.GetAllSslCertificates (Mcert.state Fake.pruned)) /\
  Mcert.state c' = Mcert.state Fake.pruned /\ Mcert.queue c' = Mcert.queue Fake.pruned.
Proof. exact (sweep_requests_the_orphans Fake.pruned eq_refl). Defined.

(** X11 on a provider that cannot be listed. *)
Lemma resync_with_provider_down_witness :
  let c' := snd (Mcert.synchronizeAllMcerts Fake.listDown) in
  (forall k, Mcert.state c' !! k =
     if decide (k ∈ Name <$> [Fake.mcrt "ns" "a" "cert-a"])
     then Mcert.state Fake.listDown !! k else None) /\
  Mcert.sslClient c' = Mcert.sslClient Fake.listDown /\
  Mcert.queue c' = Mcert.queue Fake.listDown /\
  Mcert.handled c' = Mcert.handled Fake.listDown ++ [Fake.unavailable].
Proof.
  exact (resync_with_provider_down Fake.listDown [Fake.mcrt "ns" "a" "cert-a"]
           Fake.unavailable eq_refl eq_refl).
Defined.

(** X13 on the scenario of the specification. *)
Lemma resync_converges_witness :
  let c1 := snd (Mcert.synchronizeAllMcerts Fake.scenario) in
  let c2 := snd (Mcert.synchronizeAllMcerts c1) in
  Mcert.state c2 = Mcert.state c1 /\ Mcert.sslClient c2 = Mcert.sslClient c1 /\
  newDeleteCalls c1 c2 = [].
Proof.
  exact (resync_converges Fake.scenario [Fake.mcrt "ns" "a" "cert-a"] eq_refl eq_refl
           (fun _ => eq_refl)).
Defined.

(** * Further properties of the supervisor *)

Section SupervisorFurther.

Import Supervisor.

Lemma inv2_start c : inv2 c (start c).
Proof.
  split; simpl; try done; intros;
    repeat match goal with
    | H : _ \/ _ |- _ => destruct H
    | H : _ /\ _ |- _ => destruct H
    | H : _ ∈ [] |- _ => by apply not_elem_of_nil in H
    end;
    try done; try apply NoDup_nil_2; try apply not_elem_of_nil; try by left.
  intros [H _]. by apply not_elem_of_nil in H.
Qed.

Local Ltac pcs :=
  repeat match goal with
  | H : mainPc _ = _ |- _ => rewrite H in *; clear H
  | H : mcertPc _ = _ |- _ => rewrite H in *; clear H
  end; simpl in *.

(** Use a fact whose premise holds outright. *)
Local Ltac fire :=
  repeat match goal with
  | H : true = true -> _ |- _ => specialize (H eq_refl)
  | H : false = false -> _ |- _ => specialize (H eq_refl)
  | H : ?x = ?x \/ _ -> _ |- _ => specialize (H (or_introl eq_refl))
  | H : _ \/ ?x = ?x -> _ |- _ => specialize (H (or_intror eq_refl))
  | H : ?x = ?x -> _ |- _ => specialize (H eq_refl)
  | H : true = false -> _ |- _ => clear H
  | H : false = true -> _ |- _ => clear H
  | H : ?P -> _, H' : ?P |- _ =>
      match type of P with Prop => specialize (H H') end
  | H : ?P \/ _ -> _, H' : ?P |- _ => specialize (H (or_introl H'))
  | H : _ \/ ?P -> _, H' : ?P |- _ => specialize (H (or_intror H'))
  | H : _ /\ _ |- _ => destruct H
  | H : is_Some None |- _ => by apply is_Some_None in H
  end.

Local Ltac members :=
  repeat match goal with
  | H : _ ∈ _ ++ [_] |- _ =>
      apply elem_of_app in H as [H|H]; [|apply list_elem_of_singleton in H]
  | H : running _ _ |- _ => destruct H
  | |- _ ∉ _ ++ [_] => apply not_started_snoc
  | |- NoDup (_ ++ [_]) =>
      apply NoDup_app; split; [|split; [|apply NoDup_singleton]]
  end.

Lemma inv2_step c s s' : inv s -> inv2 c s -> step s s' -> inv2 c s'.
Proof.
  intros [Hloops Hfailed Hsending Hspawn Hingress Hworker Hquit Hran]
         [Hpristine Htimeout Honce Hnoi Hnoiw Hnor Hwfirst Horder Hiorder
          Hstopped Honestop Histop Hreturned Hsent Hquiet Hreported] Hstep.
  destruct Hstep; pcs; fire; split; simpl; pcs; try done.
  all: intros; members; fire; subst; try done; try congruence.
  all: try (apply elem_of_app; first [left; by eauto | right; by apply list_elem_of_here]).
  all: try (intros x Hx Hin; apply list_elem_of_singleton in Hin; subst; by eauto).
  all: try (intros [Hw Hr]; members; fire; subst; try done; try congruence; by eauto).
  all: try (repeat match goal with H : _ \/ _ |- _ => destruct H end;
            fire; subst; try done; try congruence; by eauto).
  all: try (match goal with H : Returned _ = Returned _ |- _ => by inversion H end).
  all: try (right; destruct (Hsent _ eq_refl) as (e & He & ->); exists e;
            by rewrite Hquiet).
  all: try (split; [done|]; intros Hret; destruct (Hreturned Hret) as [Hs|Hf]; [|done];
            destruct Hloops as [Hw Hr]; [by right|];
            match goal with H : _ = WorkerLoop \/ _ |- _ => destruct H; subst; done end).
  all: try (match goal with H : SendError _ = SendError _ |- _ =>
              injection H as <-; by eauto end).
  all: try (left; destruct Hreported as [?|(e & He & _)]; [done|];
            exfalso; rewrite He in Hfailed; by discriminate Hfailed).
  match goal with
  | H : _ ∈ _ ++ [_] \/ _ ∈ _ ++ [_] |- _ =>
      destruct H as [H|H]; apply elem_of_app in H as [H|H];
      try (apply list_elem_of_singleton in H; discriminate H);
      apply Hstopped; eauto
  end.
Qed.

Lemma invs_reachable c s : reachable c s -> inv s /\ inv2 c s.
Proof.
  unfold reachable. revert s. apply rtc_ind_r; [split; [apply inv_start|apply inv2_start]|].
  intros s1 s2 _ Hstep [IH IH2]. split; [by apply (inv_step s1)|by apply (inv2_step c s1)].
Qed.

(** X14.  When the wait for the cache gives up, [Controller.Run] returns
    the time-out error having started nothing: [McertController.Run] is not
    spawned, no loop is started or run, and the controller is untouched. *)
Theorem cache_timeout_starts_nothing c s e :
  reachable c s ->
  mainPc s = Returned (Some e) ->
  e = Other "Timed out waiting for cache sync" /\
  mcertPc s = NotSpawned /\ started s = [] /\ ran s = [] /\
  initError s = None /\ controller s = c.
Proof.
  intros Hr Hpc. destruct (invs_reachable c s Hr) as [Hinv Hinv2].
  destruct (inv2_pristine c s Hinv2) as (? & ? & _ & _ & ? & ?); [by rewrite Hpc|].
  split; [by apply (inv2_timeout c s Hinv2)|].
  split; [apply (inv_spawn s Hinv); by rewrite Hpc|]. done.
Qed.

(** X15.  No loop is started twice, the resync loop is started only after
    the worker loop and the ingress worker only after the ingress loop. *)
Theorem loops_started_once_in_order c s :
  reachable c s ->
  NoDup (started s) /\
  (ResyncLoop ∈ started s -> WorkerLoop ∈ started s) /\
  (IngressWorkerLoop ∈ started s -> IngressLoop ∈ started s).
Proof.
  intros Hr. destruct (invs_reachable c s Hr) as [_ Hinv2].
  split; [apply (inv2_once c s Hinv2)|].
  split; [apply (inv2_order c s Hinv2)|apply (inv2_ingress_order c s Hinv2)].
Qed.

(** X16.  The one value [quit] sends on [mcertStopChannel] reaches one
    receiver only: the worker loop and the resync loop are never both
    stopped, and when one of them has taken the value,
    [McertController.Run] has not returned. *)
Theorem quit_stops_one_receiver c s :
  reachable c s ->
  ~ (WorkerLoop ∈ stopped s /\ ResyncLoop ∈ stopped s) /\
  (WorkerLoop ∈ stopped s \/ ResyncLoop ∈ stopped s -> mcertPc s <> McertReturned).
Proof.
  intros Hr. destruct (invs_reachable c s Hr) as [_ Hinv2].
  split; [apply (inv2_one_stop c s Hinv2)|].
  intros Hstop. by destruct (inv2_stopped c s Hinv2 Hstop).
Qed.

(** X17.  After a failure of [initializeState], [Controller.Run] never
    returns and never stops the ingress loop: its send on
    [mcertStopChannel] finds no receiver. *)
Theorem init_failure_never_returns c s :
  reachable c s ->
  is_Some (initError s) ->
  pastQuitMcert (mainPc s) = false /\
  (forall err, mainPc s <> Returned err) /\
  IngressLoop ∉ stopped s.
Proof.
  intros Hr Hfail. destruct (invs_reachable c s Hr) as [Hinv Hinv2].
  assert (Hblocked : pastQuitMcert (mainPc s) = false).
  { destruct (pastQuitMcert (mainPc s)) eqn:Hpast; [|done].
    destruct (inv_quit s Hinv Hpast) as [Hnone _]. rewrite Hnone in Hfail.
    by apply is_Some_None in Hfail. }
  split; [done|]. split.
  - intros [e|] Hpc; [|by rewrite Hpc in Hblocked].
    destruct (inv2_pristine c s Hinv2) as (_ & _ & _ & _ & Hnone & _); [by rewrite Hpc|].
    rewrite Hnone in Hfail. by apply is_Some_None in Hfail.
  - intros Hstop. pose proof (inv2_ingress_stop c s Hinv2 Hstop) as Hpc.
    by rewrite Hpc in Hblocked.
Qed.

(** X18.  [Controller.Run] hands at most one error to [HandleError], the
    error of [initializeState] wrapped by [McertController.Run], and none
    before it has left its [select]. *)
Theorem reports_only_the_init_error c s :
  reachable c s ->
  (reported s = [] \/
   exists e, initError s = Some e /\ reported s = [initErrorf e]) /\
  (pastSelect (mainPc s) = false -> reported s = []).
Proof.
  intros Hr. destruct (invs_reachable c s Hr) as [_ Hinv2].
  split; [apply (inv2_reported c s Hinv2)|apply (inv2_quiet c s Hinv2)].
Qed.

Lemma timedOutRun_reachable c : reachable c (timedOutRun c).
Proof.
  unfold reachable, timedOutRun.
  eapply rtc_l; [apply step_cache_timeout; reflexivity|]. apply rtc_refl.
Qed.

Lemma stoppedRun_reachable : reachable Fake.scenario stoppedRun.
Proof.
  unfold reachable.
  eapply rtc_l; [apply step_cache_synced; reflexivity|].
  eapply rtc_l; [apply step_go_mcert; reflexivity|].
  eapply rtc_l; [apply step_go_ingress; reflexivity|].
  eapply rtc_l.
  { apply (step_init_ok _ (snd (Mcert.initializeState Fake.scenario))); [reflexivity|].
    change (Mcert.initializeState Fake.scenario =
            (None, snd (Mcert.initializeState Fake.scenario))).
    pose proof (initializeState_ok Fake.scenario _ eq_refl) as [Hnone _].
    destruct (Mcert.initializeState Fake.scenario) as [res c1]. simpl in *. by subst. }
  eapply rtc_l; [apply step_go_worker; reflexivity|].
  eapply rtc_l; [apply step_go_ingress_worker; reflexivity|].
  eapply rtc_l; [apply step_select_stop; reflexivity|].
  eapply rtc_l.
  { apply (step_quit_mcert_loop _ WorkerLoop); [reflexivity|by left|].
    split; [by_evaluation|apply not_elem_of_nil]. }
  eapply rtc_l; [apply step_go_resync; reflexivity|].
  apply rtc_refl.
Qed.

End SupervisorFurther.

(** * What [McertController.Run] does after a failure *)

Section SupervisorReports.

Import Supervisor.







End SupervisorReports.




(** X14 on the run that gives up on the cache, for the scenario of the
    specification. *)
Lemma cache_timeout_starts_nothing_witness :
  Other "Timed out waiting for cache sync" = Other "Timed out waiting for cache sync" /\
  Supervisor.mcertPc (timedOutRun Fake.scenario) = Supervisor.NotSpawned /\
  Supervisor.started (timedOutRun Fake.scenario) = [] /\
  Supervisor.ran (timedOutRun Fake.scenario) = [] /\
  Supervisor.initError (timedOutRun Fake.scenario) = None /\
  Supervisor.controller (timedOutRun Fake.scenario) = Fake.scenario.
Proof.
  exact (cache_timeout_starts_nothing Fake.scenario (timedOutRun Fake.scenario) _
           (timedOutRun_reachable Fake.scenario) eq_refl).
Defined.

(** X15 on the run stopped between the two [go] statements. *)
Lemma loops_started_once_in_order_witness :
  NoDup (Supervisor.started stoppedRun) /\
  (Supervisor.ResyncLoop ∈ Supervisor.started stoppedRun ->
   Supervisor.WorkerLoop ∈ Supervisor.started stoppedRun) /\
  (Supervisor.IngressWorkerLoop ∈ Supervisor.started stoppedRun ->
   Supervisor.IngressLoop ∈ Supervisor.started stoppedRun).
Proof. exact (loops_started_once_in_order Fake.scenario stoppedRun stoppedRun_reachable). Defined.

(** X16 on the same run: the worker loop took the value, the resync loop
    and [McertController.Run] were not stopped. *)
Lemma quit_stops_one_receiver_witness :
  ~ (Supervisor.WorkerLoop ∈ Supervisor.stopped stoppedRun /\
     Supervisor.ResyncLoop ∈ Supervisor.stopped stoppedRun) /\
  (Supervisor.WorkerLoop ∈ Supervisor.stopped stoppedRun \/
   Supervisor.ResyncLoop ∈ Supervisor.stopped stoppedRun ->
   Supervisor.mcertPc stoppedRun <> Supervisor.McertReturned).
Proof. exact (quit_stops_one_receiver Fake.scenario stoppedRun stoppedRun_reachable). Defined.

(** X17 on the run in which the cache cannot be listed. *)
Lemma init_failure_never_returns_witness :
  pastQuitMcert (Supervisor.mainPc failedRun) = false /\
  (forall err, Supervisor.mainPc failedRun <> Supervisor.Returned err) /\
  Supervisor.IngressLoop ∉ Supervisor.stopped failedRun.
Proof.
  exact (init_failure_never_returns Fake.cacheDown failedRun failedRun_reachable
           (mk_is_Some _ _ eq_refl)).
Defined.

(** X18 on the same run: nothing is reported while [Controller.Run] waits
    in its [select]. *)
Lemma reports_only_the_init_error_witness :
  (Supervisor.reported failedRun = [] \/
   exists e, Supervisor.initError failedRun = Some e /\
             Supervisor.reported failedRun = [Supervisor.initErrorf e]) /\
  (pastSelect (Supervisor.mainPc failedRun) = false -> Supervisor.reported failedRun = []).
Proof. exact (reports_only_the_init_error Fake.cacheDown failedRun failedRun_reachable). Defined.

(** * Further properties of the custom resource definition *)

Section CrdFurther.

Import Crd.

Lemma schemaOf_cases version schema :
  schemaOf version = Some schema ->
  schema = object [("status", statusSchema); ("spec", specSchema maxDomains1)] \/
  schema = object [("status", statusSchema); ("spec", specSchema maxDomains100)].
Proof.
  unfold schemaOf, Versions. cbn [List.find VersionName].
  destruct (String.eqb "v1beta1" version); [intros [= <-]; by left|].
  destruct (String.eqb "v1beta2" version); [intros [= <-]; by right|]. done.
Qed.

(** X19.  Whatever the first version of the schema accepts as
    [spec.domains], the second version accepts too. *)
Theorem second_version_accepts_more first second domains :
  schemaOf "v1beta1" = Some first ->
  schemaOf "v1beta2" = Some second ->
  validate first (withDomains domains) = true ->
  validate second (withDomains domains) = true.
Proof.
  intros [= <-] [= <-]. cbn [Schema]. rewrite !validate_domains_iff.
  unfold maxDomains1, maxDomains100. intros [Hlen Hall]. split; [lia|done].
Qed.

(** X20.  Neither version of the schema requires anything: an object
    without [spec] and without [status] is accepted, whatever other fields
    it has. *)
Theorem schema_requires_nothing version schema fields :
  schemaOf version = Some schema ->
  field "spec" fields = None ->
  field "status" fields = None ->
  validate schema (JObject fields) = true.
Proof.
  intros Hs Hspec Hstatus.
  destruct (schemaOf_cases version schema Hs) as [-> | ->];
    unfold object; cbn [validate hasType String.eqb forallb andb];
    rewrite Hspec, Hstatus; reflexivity.
Qed.

(** X21.  Both versions accept as [spec.domains] nothing but an array of
    strings. *)
Theorem domains_is_an_array_of_strings version schema v :
  schemaOf version = Some schema ->
  validate schema (withSpecDomains v) = true ->
  exists domains, v = JArray (JString <$> domains).
Proof.
  intros Hs.
  assert (Hitems : forall (f : JSON -> bool),
    (forall e, f e = true -> exists d, e = JString d) ->
    forall elems, forallb f elems = true -> exists domains, elems = JString <$> domains).
  { intros f Hf. induction elems as [|e elems IH]; simpl; [by exists []|].
    rewrite andb_true_iff. intros [He Hrest].
    destruct (IH Hrest) as [domains ->]. destruct (Hf e He) as [d ->].
    by exists (d :: domains). }
  destruct (schemaOf_cases version schema Hs) as [-> | ->];
    unfold withSpecDomains, specSchema, object;
    cbn [validate hasType field String.eqb Ascii.eqb Bool.eqb forallb andb orb atMost];
    (destruct v as [| | | |elems|]; try discriminate);
    rewrite !andb_true_r; intros Hall;
    do 2 (apply andb_prop in Hall; destruct Hall as [_ Hall]);
    (apply Hitems in Hall; [destruct Hall as [domains ->]; by exists domains|]);
    intros e; destruct e; simpl; try discriminate; eauto.
Qed.

(** X22.  Both versions accept a [status.domainStatus] exactly when each
    of its items is an object with a [domain] and a [status], both
    strings. *)
Theorem domainStatus_items version schema items :
  schemaOf version = Some schema ->
  validate schema (withDomainStatus items) = true <-> Forall domainStatusItem items.
Proof.
  intros Hs.
  assert (Hitem : forall item,
    validate {| Type_ := "object"; Format := ""; Required := ["domain"; "status"];
                MaxItems := None; MaxLength := None; Pattern := None; Items := None;
                Properties := [("domain", typed "string"); ("status", typed "string")] |}
             item = true <-> domainStatusItem item).
  { intros item. unfold domainStatusItem, typed.
    cbn [validate hasType String.eqb Ascii.eqb Bool.eqb forallb andb orb atMost].
    destruct item as [| | | | |fields];
      try (split; [discriminate|intros (? & ? & ? & ? & _); discriminate]).
    destruct (field "domain" fields) as [[| | |d| |]|] eqn:Hd;
      destruct (field "status" fields) as [[| | |st| |]|] eqn:Hst; simpl;
      (split;
       [ try discriminate; intros _; by eexists _, _, _
       | try done; intros (f & d' & s' & [= <-] & H1 & H2); congruence ]). }
  assert (Hall : validate schema (withDomainStatus items) =
                 forallb (validate
                   {| Type_ := "object"; Format := ""; Required := ["domain"; "status"];
                      MaxItems := None; MaxLength := None; Pattern := None; Items := None;
                      Properties := [("domain", typed "string"); ("status", typed "string")] |})
                   items).
  { destruct (schemaOf_cases version schema Hs) as [-> | ->];
      unfold withDomainStatus, statusSchema, object;
      cbn [validate hasType field String.eqb Ascii.eqb Bool.eqb andb orb atMost];
      by rewrite ?andb_true_r. }
  rewrite Hall, forallb_forall, Forall_forall.
  split; intros H item Hin; apply Hitem, H; by apply list_elem_of_In.
Qed.

(** ** What the matcher consumes *)

Lemma forallb_weaken {A} (f g : A -> bool) (l : list A) :
  (forall x, f x = true -> g x = true) -> forallb f l = true -> forallb g l = true.
Proof.
  intros Hfg. rewrite !forallb_forall. intros H x Hx. apply Hfg, H, Hx.
Qed.

(** The loop of a repetition consumes characters of its body only. *)
Lemma repeat_sound (r : Regex) (total : nat) (k : list ascii -> bool) :
  (forall (s : list ascii) (kont : list ascii -> bool),
     matchAt r total s kont = true ->
     exists pre s', s = pre ++ s' /\ forallb (alphabet r) pre = true /\ kont s' = true) ->
  forall fuel s,
    (fix again (fuel : nat) (s : list ascii) {struct fuel} : bool :=
       if k s then true else
       match fuel with
       | O => false
       | S fuel' =>
           matchAt r total s (fun s' =>
             if (length s' <? length s)%nat then again fuel' s' else false)
       end) fuel s = true ->
    exists pre s', s = pre ++ s' /\ forallb (alphabet r) pre = true /\ k s' = true.
Proof.
  intros Hr. induction fuel as [|fuel IH]; intros s H.
  - destruct (k s) eqn:Hk; [|discriminate]. by exists [], s.
  - destruct (k s) eqn:Hk; [by exists [], s|].
    apply Hr in H as (pre1 & s1 & -> & Hpre1 & H).
    destruct (length s1 <? length (pre1 ++ s1))%nat; [|discriminate].
    apply IH in H as (pre2 & s2 & -> & Hpre2 & H).
    exists (pre1 ++ pre2), s2. rewrite app_assoc, forallb_app, Hpre1, Hpre2. done.
Qed.

(** A successful match consumes a prefix made of characters of the
    pattern and hands the rest to the continuation; an anchor at the end
    leaves nothing, an anchor at the start allows no text before. *)
Lemma matchAt_sound r :
  forall total s k,
    matchAt r total s k = true ->
    exists pre s',
      s = pre ++ s' /\ forallb (alphabet r) pre = true /\ k s' = true /\
      (anchoredEnd r = true -> s' = []) /\
      (anchoredStart r = true -> length s = total).
Proof.
  induction r as [| |c|items|r1 IH1 r2 IH2|r1 IH1 r2 IH2|r IH|r IH|r IH|r IH];
    intros total s k H.
  - cbn [matchAt] in H. destruct (Nat.eqb_spec (length s) total); [|discriminate].
    by exists [], s.
  - cbn [matchAt] in H. destruct s; [|discriminate]. by exists [], [].
  - cbn [matchAt] in H. destruct s as [|c' s']; [discriminate|].
    destruct (Ascii.eqb c c') eqn:Hc; [|discriminate].
    exists [c'], s'. simpl. by rewrite Hc.
  - cbn [matchAt] in H. destruct s as [|c' s']; [discriminate|].
    destruct (existsb (inItem c') items) eqn:Hc; [|discriminate].
    exists [c'], s'. simpl. by rewrite Hc.
  - cbn [matchAt] in H.
    apply IH1 in H as (pre1 & s1 & -> & Hpre1 & H & _ & Hstart).
    apply IH2 in H as (pre2 & s2 & -> & Hpre2 & H & Hend & _).
    exists (pre1 ++ pre2), s2. split; [by rewrite app_assoc|].
    split; [|split; [done|split; [exact Hend|exact Hstart]]].
    rewrite forallb_app. apply andb_true_iff. split.
    + apply (forallb_weaken (alphabet r1)); [|done]. simpl. intros x ->. done.
    + apply (forallb_weaken (alphabet r2)); [|done]. simpl. intros x ->.
      apply orb_true_r.
  - cbn [matchAt] in H. cbn [anchoredEnd anchoredStart].
    destruct (matchAt r1 total s k) eqn:H1.
    + apply IH1 in H1 as (pre & s' & -> & Hpre & Hk & Hend & Hstart).
      exists pre, s'. split; [done|]. split.
      * apply (forallb_weaken (alphabet r1)); [|done]. simpl. intros x ->. done.
      * split; [done|]. split; intros Ha; apply andb_true_iff in Ha as [? ?]; auto.
    + apply IH2 in H as (pre & s' & -> & Hpre & Hk & Hend & Hstart).
      exists pre, s'. split; [done|]. split.
      * apply (forallb_weaken (alphabet r2)); [|done]. simpl. intros x ->.
        apply orb_true_r.
      * split; [done|]. split; intros Ha; apply andb_true_iff in Ha as [? ?]; auto.
  - cbn [matchAt] in H. apply IH in H. exact H.
  - cbn [matchAt] in H.
    apply IH in H as (pre1 & s1 & -> & Hpre1 & H & _ & Hstart).
    apply (repeat_sound r total k) in H as (pre2 & s2 & -> & Hpre2 & H).
    + exists (pre1 ++ pre2), s2. split; [by rewrite app_assoc|].
      split; [change (alphabet (Plus r)) with (alphabet r);
              by rewrite forallb_app, Hpre1, Hpre2|].
      split; [done|]. split; [done|exact Hstart].
    + intros s0 kont H0. apply IH in H0 as (pre & s' & ? & ? & ? & _). by exists pre, s'.
  - cbn [matchAt] in H.
    apply (repeat_sound r total k) in H as (pre & s' & -> & Hpre & H).
    + by exists pre, s'.
    + intros s0 kont H0. apply IH in H0 as (pre & s' & ? & ? & ? & _). by exists pre, s'.
  - cbn [matchAt] in H. destruct (matchAt r total s k) eqn:H1.
    + apply IH in H1 as (pre & s' & -> & Hpre & Hk & _). by exists pre, s'.
    + by exists [], s.
Qed.

Lemma suffixes_split (s x : list ascii) :
  In x (suffixes s) -> exists before, s = before ++ x.
Proof.
  induction s as [|c s IH]; simpl.
  - intros [<-|[]]. by exists [].
  - intros [<-|Hin]; [by exists []|].
    destruct (IH Hin) as [before ->]. by exists (c :: before).
Qed.

Lemma domainRegex_alphabet c : alphabet domainRegex c = true -> domainChar c = true.
Proof.
  destruct c as [b0 b1 b2 b3 b4 b5 b6 b7].
  destruct b0, b1, b2, b3, b4, b5, b6, b7; vm_compute; intros H; exact H.
Qed.

Lemma domainChar_one_byte c :
  domainChar c = true ->
  negb ((128 <=? nat_of_ascii c)%nat && (nat_of_ascii c <? 192)%nat) = true.
Proof.
  destruct c as [b0 b1 b2 b3 b4 b5 b6 b7].
  destruct b0, b1, b2, b3, b4, b5, b6, b7; vm_compute; intros H;
    first [exact H | reflexivity].
Qed.

Lemma filter_all {A} (f : A -> bool) (l : list A) :
  forallb f l = true -> List.filter f l = l.
Proof.
  induction l as [|x l IH]; simpl; [done|].
  destruct (f x); [|discriminate]. intros H. by rewrite IH.
Qed.

Lemma length_list_ascii_of_string (s : string) :
  length (list_ascii_of_string s) = String.length s.
Proof. induction s as [|c s IH]; simpl; [done|]. by rewrite IH. Qed.

(** X23.  A domain that matches [domainRegex] is matched as a whole and
    consists of letters, digits, hyphens and dots only; its length in
    characters, which [MaxLength] bounds, is therefore its length in
    bytes. *)
Theorem matched_domain_characters d :
  MatchString domainRegex d = true ->
  forallb domainChar (list_ascii_of_string d) = true /\
  RuneCountInString d = Z.of_nat (String.length d).
Proof.
  unfold MatchString. intros H. apply existsb_exists in H as (suffix & Hin & H).
  apply matchAt_sound in H as (pre & rest & -> & Hpre & _ & Hend & Hstart).
  rewrite (Hend eq_refl), app_nil_r in *. specialize (Hstart eq_refl).
  apply suffixes_split in Hin as [before Hd]. rewrite Hd, length_app in Hstart.
  destruct before; [|simpl in Hstart; lia]. simpl in Hd.
  assert (Hchars : forallb domainChar (list_ascii_of_string d) = true).
  { rewrite Hd. apply (forallb_weaken (alphabet domainRegex)); [|done].
    apply domainRegex_alphabet. }
  split; [done|]. unfold RuneCountInString.
  rewrite filter_all, length_list_ascii_of_string; [done|].
  apply (forallb_weaken domainChar); [apply domainChar_one_byte|done].
Qed.

End CrdFurther.

(** X19 on one domain. *)
Lemma second_version_accepts_more_witness :
  Crd.validate (Crd.object [("status", Crd.statusSchema);
                            ("spec", Crd.specSchema Crd.maxDomains100)])
               (Crd.withDomains ["a.example.com"]) = true.
Proof.
  exact (second_version_accepts_more _ _ ["a.example.com"] eq_refl eq_refl eq_refl).
Defined.

(** X20 on an object that has only a [metadata] field. *)
Lemma schema_requires_nothing_witness :
  Crd.validate (Crd.object [("status", Crd.statusSchema);
                            ("spec", Crd.specSchema Crd.maxDomains1)])
               (Crd.JObject [("metadata", Crd.JObject [("name", Crd.JString "a")])]) = true.
Proof.
  exact (schema_requires_nothing "v1beta1" _
           [("metadata", Crd.JObject [("name", Crd.JString "a")])] eq_refl eq_refl eq_refl).
Defined.

(** X21 on a list of two domains under the second version. *)
Lemma domains_is_an_array_of_strings_witness :
  exists domains,
    Crd.JArray [Crd.JString "a.example.com"; Crd.JString "b.example.com"] =
    Crd.JArray (Crd.JString <$> domains).
Proof.
  exact (domains_is_an_array_of_strings "v1beta2" _
           (Crd.JArray [Crd.JString "a.example.com"; Crd.JString "b.example.com"])
           eq_refl eq_refl).
Defined.

(** X22 on an item that lacks its [status]. *)
Lemma domainStatus_items_witness :
  Crd.validate (Crd.object [("status", Crd.statusSchema);
                            ("spec", Crd.specSchema Crd.maxDomains1)])
    (withDomainStatus [Crd.JObject [("domain", Crd.JString "a.example.com")]]) = true <->
  Forall domainStatusItem [Crd.JObject [("domain", Crd.JString "a.example.com")]].
Proof.
  exact (domainStatus_items "v1beta1" _
           [Crd.JObject [("domain", Crd.JString "a.example.com")]] eq_refl).
Defined.

(** X23 on [a.example.com]. *)
Lemma matched_domain_characters_witness :
  forallb domainChar (list_ascii_of_string "a.example.com") = true /\
  Crd.RuneCountInString "a.example.com" = 13%Z.
Proof.
  exact (matched_domain_characters "a.example.com" ltac:(vm_compute; reflexivity)).
Defined.

(** * Properties of the deployment *)

Lemma IgnoreNotFound_Some res e :
  IgnoreNotFound res = Some e -> res = Some e /\ IsNotFound e = false.
Proof.
  destruct res as [e'|]; simpl; [|done].
  destruct (IsNotFound e') eqn:Hnf; [done|]. by intros [= <-].
Qed.

Lemma runOf_prefix script made result :
  runOf script made result -> (fst <$> made) `prefix_of` script.
Proof.
  destruct result as [e|]; simpl.
  - by intros (before & c & _ & Hprefix & _).
  - by intros [<- _].
Qed.

Lemma runOf_before script made result before x after :
  runOf script made result -> made = before ++ x :: after ->
  Forall wentThrough before.
Proof.
  destruct result as [e|]; simpl.
  - intros (before0 & c & -> & _ & Hall & _) Heq.
    destruct after as [|y after _] using rev_ind.
    + by apply app_inj_tail in Heq as [-> _].
    + assert (Heq' : before0 ++ [(c, Some e)] = (before ++ x :: after) ++ [y])
        by (rewrite Heq, <- app_assoc; reflexivity).
      apply app_inj_tail in Heq' as [-> _].
      apply Forall_app in Hall. tauto.
  - intros [_ Hall] ->. apply Forall_app in Hall. tauto.
Qed.

Section DeployProperties.

Import Deploy.
Context {K : Type}.
Variable clients : Api K.

Local Ltac run :=
  unfold deployController, deleteController, deployCRD, established,
    Create, Delete, Get, Infof, modify, bind, ret;
  simpl.

(** The next call of the run, with the cases of its result. *)
Local Ltac call :=
  match goal with
  | |- context [ApiDelete ?c ?kind ?name ?k] =>
      let r := fresh "r" in
      let H := fresh "H" in
      destruct (ApiDelete c kind name k) as [r ?]; simpl;
      destruct (IgnoreNotFound r) eqn:H; simpl;
      [apply IgnoreNotFound_Some in H as [-> H]|]
  | |- context [ApiCreate ?c ?obj ?k] =>
      destruct (ApiCreate c obj k) as [[?|] ?]; simpl
  end.

(** The calls before the one that failed, by their number. *)
Local Ltac failed_after :=
  first [ eexists [], _; split; [reflexivity|]
        | eexists [_], _; split; [reflexivity|]
        | eexists [_; _], _; split; [reflexivity|]
        | eexists [_; _; _], _; split; [reflexivity|]
        | eexists [_; _; _; _], _; split; [reflexivity|]
        | eexists [_; _; _; _; _], _; split; [reflexivity|]
        | eexists [_; _; _; _; _; _], _; split; [reflexivity|]
        | eexists [_; _; _; _; _; _; _], _; split; [reflexivity|] ].

Local Ltac went_through :=
  repeat constructor; unfold wentThrough; simpl; try done.

Local Ltac settle :=
  eexists _, _;
  split; [rewrite <- ?app_assoc; simpl; reflexivity|];
  split; [first [exact (eq_sym (app_nil_r _)) | rewrite <- ?app_assoc; simpl; reflexivity]|];
  split; [|reflexivity];
  unfold runOf, deletions, creations; simpl;
  first [ split; [reflexivity | went_through]
        | failed_after;
          split; [eexists; reflexivity|];
          split; [went_through|];
          unfold wentThrough; simpl;
          match goal with
          | H : IsNotFound _ = false |- _ => rewrite H
          | _ => idtac
          end; done ].

(** X24.  [deleteController] asks for the four deletions in the order
    service account, cluster role, cluster role binding, deployment, and
    stops at the first that returns an error other than "not found", which
    it returns; a "not found" counts as deleted.  It returns [nil] only
    after all four went through, and logs one line for each deletion that
    went through. *)
Theorem deleteController_stops_at_first_failure w :
  exists made lines,
    calls (snd (deleteController clients w)) = calls w ++ made /\
    klog (snd (deleteController clients w)) = klog w ++ lines /\
    runOf deletions made (fst (deleteController clients w)) /\
    length lines = match fst (deleteController clients w) with
                   | None => length made
                   | Some _ => pred (length made)
                   end.
Proof.
  run. repeat (call; [settle|]). settle.
Qed.

(** The run of [deployController]: the deletions, then the creations. *)
Lemma deployController_run tag w :
  exists made lines,
    calls (snd (deployController clients tag w)) = calls w ++ made /\
    klog (snd (deployController clients tag w)) = klog w ++ lines /\
    runOf (deletions ++ creations tag) made (fst (deployController clients tag w)) /\
    length lines = match fst (deployController clients tag w) with
                   | None => length made
                   | Some _ => pred (length made)
                   end.
Proof.
  run. repeat (call; [settle|]). settle.
Qed.

(** X25.  [deployController] first makes the four deletions of
    [deleteController], then creates the service account, the cluster role,
    the cluster role binding and the deployment, in this order.  It stops
    at the first deletion that fails with something other than "not found"
    and at the first creation that fails at all, returning that error; it
    returns [nil] only after all eight calls went through, and logs one
    line for each call that went through. *)
Theorem deployController_deletes_then_creates tag w :
  exists made lines,
    calls (snd (deployController clients tag w)) = calls w ++ made /\
    klog (snd (deployController clients tag w)) = klog w ++ lines /\
    runOf (deletions ++ creations tag) made (fst (deployController clients tag w)) /\
    length lines = match fst (deployController clients tag w) with
                   | None => length made
                   | Some _ => pred (length made)
                   end.
Proof.
  exact (deployController_run tag w).
Qed.

(** X26.  Whatever [deployController] creates it has asked to delete
    before, under the same kind and the same name, and that deletion went
    through; and once it has created an object it deletes nothing: a
    deployment that fails half way leaves behind what it created. *)
Theorem deployController_creates_after_deleting tag w before obj r after :
  calls (snd (deployController clients tag w)) =
    calls w ++ before ++ (CallCreate obj, r) :: after ->
  (exists r', (CallDelete (kindOf obj) (nameOf obj), r') ∈ before /\
              IgnoreNotFound r' = None) /\
  (forall kind name r', (CallDelete kind name, r') ∉ after).
Proof.
  destruct (deployController_run tag w) as (made & lines & Hcalls & _ & Hrun & _).
  intros Heq. rewrite Hcalls in Heq. apply app_inv_head in Heq.
  pose proof (runOf_prefix _ _ _ Hrun) as [rest Hscript].
  pose proof (runOf_before _ _ _ _ _ _ Hrun Heq) as Hall.
  subst made. rewrite fmap_app, fmap_cons, <- app_assoc in Hscript.
  unfold deletions, creations in Hscript. simpl in Hscript.
  clear Hrun Hcalls.
  do 4 (destruct before as [|[? ?] before]; simpl in Hscript;
        [discriminate Hscript|]; injection Hscript as <- Hscript).
  repeat rewrite Forall_cons in Hall. unfold wentThrough in Hall. simpl in Hall.
  destruct Hall as (H1 & H2 & H3 & H4 & _).
  do 4 (destruct before as [|[? ?] before]; simpl in Hscript;
        [ injection Hscript as <- Hscript; simpl; split;
          [ eexists; split;
            [ rewrite !elem_of_cons; repeat first [left; reflexivity | right]
            | assumption ]
          | intros kind name r' Hin;
            apply (list_elem_of_fmap_2 fst) in Hin; simpl in Hin;
            assert (Hin' : CallDelete kind name ∈ after.*1 ++ rest)
              by (apply elem_of_app; tauto);
            rewrite <- Hscript in Hin';
            repeat (apply elem_of_cons in Hin' as [Hin'|Hin']; [discriminate Hin'|]);
            by apply elem_of_nil in Hin' ]
        | injection Hscript as <- Hscript ]).
  destruct before; discriminate Hscript.
Qed.

(** X27.  [deployCRD] first asks to delete the definition, where "not
    found" counts as deleted, then creates it; if either call does not go
    through, it returns that call's error without polling; otherwise it
    logs the creation and its result is that of [utils.Retry] on the
    established check, whatever the retry does. *)
Theorem deployCRD_polls_after_installing
    (Retry : M (World K) (option error) -> M (World K) (option error)) w :
  exists made w1 result,
    calls w1 = calls w ++ made /\
    runOf installation made result /\
    match result with
    | Some e => deployCRD clients Retry w = (Some e, w1) /\ klog w1 = klog w
    | None =>
        deployCRD clients Retry w = Retry (established clients) w1 /\
        klog w1 = klog w ++ ["Created custom resource definition " +:+ CrdName crd]
    end.
Proof.
  unfold deployCRD, Create, Delete, Infof, modify, bind, ret. simpl.
  destruct (ApiDelete clients CustomResource _ (cluster w)) as [r k1]. simpl.
  destruct (IgnoreNotFound r) eqn:Hr; simpl.
  - apply IgnoreNotFound_Some in Hr as [-> Hr].
    eexists _, _, (Some e). split; [|split].
    3: split; reflexivity.
    1: reflexivity.
    unfold runOf. exists [], (CallDelete CustomResource (CrdName crd)).
    split; [reflexivity|]. split; [eexists; reflexivity|]. split; [constructor|].
    unfold wentThrough. simpl. rewrite Hr. done.
  - destruct (ApiCreate clients _ k1) as [[e|] k2]; simpl.
    + eexists _, _, (Some e). split; [|split].
      3: split; reflexivity.
      1: simpl; rewrite <- app_assoc; reflexivity.
      unfold runOf. eexists [_], _. split; [reflexivity|].
      split; [eexists; reflexivity|]. split; [by repeat constructor|].
      unfold wentThrough. simpl. done.
    + eexists _, _, None. split; [|split].
      3: { split.
           - match goal with
             | |- (let (_, _) := ?p in _) = _ =>
                 transitivity p; [by destruct p as [[?|] ?] | reflexivity]
             end.
           - reflexivity. }
      1: simpl; rewrite <- app_assoc; reflexivity.
      unfold runOf. split; [reflexivity | by repeat constructor].
Qed.

(** X28.  The check that [deployCRD] polls makes one [Get] call and
    writes no log line; it returns [nil] exactly when the call succeeded
    and some condition of the definition has type Established and status
    True. *)
Theorem established_result w :
  let got := ApiGet clients (CrdName crd) (cluster w) in
  (fst (established clients w) = None <->
     snd (fst got) = None /\ Exists isEstablished (fst (fst got))) /\
  calls (snd (established clients w)) =
    calls w ++ [(CallGet (CrdName crd), snd (fst got))] /\
  klog (snd (established clients w)) = klog w /\
  cluster (snd (established clients w)) = snd got.
Proof.
  unfold established, Get, bind, ret. simpl.
  destruct (ApiGet clients _ (cluster w)) as [[conditions [e|]] k']; simpl.
  - split; [|done]. split; [done | by intros [? _]].
  - destruct (existsb _ conditions) eqn:Hex; simpl; (split; [|done]).
    + split; [intros _ | done]. split; [done|].
      apply existsb_exists in Hex as (c & Hin & Hc).
      apply Exists_exists. exists c. split; [by apply list_elem_of_In|].
      apply andb_true_iff in Hc as [Ht Hs].
      by apply String.eqb_eq in Ht, Hs.
    + split; [done|]. intros [_ Hsome].
      apply Exists_exists in Hsome as (c & Hin & Ht & Hs).
      assert (existsb (fun c => String.eqb (ConditionType c) Established &&
                                String.eqb (ConditionStatus c) ConditionTrue)
                conditions = true) as Htrue.
      { apply existsb_exists. exists c. split; [by apply list_elem_of_In|].
        rewrite Ht, Hs. reflexivity. }
      congruence.
Qed.

End DeployProperties.

(** X26 on an empty cluster: the service account is created after the
    four deletions, which found nothing to delete, and only creations
    follow. *)
Lemma deployController_creates_after_deleting_witness :
  (exists r', (Deploy.CallDelete Deploy.ServiceAccount Deploy.serviceAccountName, r') ∈
                [ (Deploy.CallDelete Deploy.ServiceAccount Deploy.serviceAccountName,
                   Some NotFound);
                  (Deploy.CallDelete Deploy.ClusterRole Deploy.clusterRoleName,
                   Some NotFound);
                  (Deploy.CallDelete Deploy.ClusterRoleBinding
                     Deploy.clusterRoleBindingName, Some NotFound);
                  (Deploy.CallDelete Deploy.Deployment Deploy.deploymentName,
                   Some NotFound) ] /\
              IgnoreNotFound r' = None) /\
  (forall kind name (r' : option error),
     (Deploy.CallDelete kind name, r') ∉
       [ (Deploy.CallCreate Deploy.clusterRole, None);
         (Deploy.CallCreate Deploy.clusterRoleBinding, None);
         (Deploy.CallCreate (Deploy.deployment "latest"), None) ]).
Proof.
  exact (deployController_creates_after_deleting Fake.api "latest" (Fake.onCluster [])
           [ (Deploy.CallDelete Deploy.ServiceAccount Deploy.serviceAccountName,
              Some NotFound);
             (Deploy.CallDelete Deploy.ClusterRole Deploy.clusterRoleName,
              Some NotFound);
             (Deploy.CallDelete Deploy.ClusterRoleBinding
                Deploy.clusterRoleBindingName, Some NotFound);
             (Deploy.CallDelete Deploy.Deployment Deploy.deploymentName,
              Some NotFound) ]
           Deploy.serviceAccount None
           [ (Deploy.CallCreate Deploy.clusterRole, None);
             (Deploy.CallCreate Deploy.clusterRoleBinding, None);
             (Deploy.CallCreate (Deploy.deployment "latest"), None) ]
           ltac:(vm_compute; reflexivity)).
Defined.

(** On an empty cluster the deployment succeeds and leaves the four
    objects; where cluster role bindings cannot be deleted it fails before
    creating anything, having deleted what came before. *)
Example deployController_on_an_empty_cluster :
  let out := Deploy.deployController Fake.api "latest" (Fake.onCluster []) in
  fst out = None /\
  Deploy.cluster (snd out) =
    [ (Deploy.ServiceAccount, Deploy.serviceAccountName);
      (Deploy.ClusterRole, Deploy.clusterRoleName);
      (Deploy.ClusterRoleBinding, Deploy.clusterRoleBindingName);
      (Deploy.Deployment, Deploy.deploymentName) ].
Proof. vm_compute. done. Qed.

Example deployController_on_a_guarded_cluster :
  let deployed :=
    [ (Deploy.ServiceAccount, Deploy.serviceAccountName);
      (Deploy.ClusterRole, Deploy.clusterRoleName);
      (Deploy.ClusterRoleBinding, Deploy.clusterRoleBindingName);
      (Deploy.Deployment, Deploy.deploymentName) ] in
  let out := Deploy.deployController Fake.guarded "latest" (Fake.onCluster deployed) in
  fst out = Some (Other "forbidden") /\
  Deploy.cluster (snd out) =
    [ (Deploy.ClusterRoleBinding, Deploy.clusterRoleBindingName);
      (Deploy.Deployment, Deploy.deploymentName) ].
Proof. vm_compute. done. Qed.

(** On an empty cluster [deployCRD] installs the definition and the first
    poll finds it established. *)
Example deployCRD_on_an_empty_cluster :
  let out := Deploy.deployCRD Fake.api Fake.retry (Fake.onCluster []) in
  fst out = None /\
  fst <$> Deploy.calls (snd out) = installation ++ [Deploy.CallGet (Deploy.CrdName Deploy.crd)].
Proof. vm_compute. done. Qed.
